(** * Custom prompt processor: variable resolution, template expansion and
      the prompt store

    A shallow embedding of [CustomPromptProcessor] (customPromptProcessor.ts)
    and the properties of its template expansion ([processCustomPrompt],
    [extractVariablesFromPrompt]) and of [updatePrompt].

    Character model: a JavaScript string is a Rocq [string]; each [ascii] is
    one code unit below 256.  Asynchronous calls are awaited one after the
    other in the source and are sequenced here in the same order. *)

From stdpp Require Import base strings list gmap.
From Stdlib Require Import Ascii.

(** ** JavaScript string methods used by the processor *)

Module Js.

(** [s.includes(needle)] *)
Fixpoint includes (needle s : string) : bool :=
  String.prefix needle s ||
  match s with
  | EmptyString => false
  | String _ t => includes needle t
  end.

(** [s.startsWith(p)] *)
Definition startsWith (p s : string) : bool := String.prefix p s.

(** [s.slice(1)] *)
Definition slice1 (s : string) : string :=
  match s with
  | EmptyString => EmptyString
  | String _ t => t
  end.

(** White space and line terminators stripped by [trim], as far as they
    fit the character model: TAB, LF, VT, FF, CR, SP and NBSP. *)
Definition isWhiteSpace (c : ascii) : bool :=
  let n := nat_of_ascii c in
  (Nat.leb 9 n && Nat.leb n 13) || Nat.eqb n 32 || Nat.eqb n 160.

Fixpoint trimStart (s : string) : string :=
  match s with
  | EmptyString => EmptyString
  | String c t => if isWhiteSpace c then trimStart t else s
  end.

Fixpoint trimEnd (s : string) : string :=
  match s with
  | EmptyString => EmptyString
  | String c t =>
      match trimEnd t with
      | EmptyString => if isWhiteSpace c then EmptyString else String c EmptyString
      | t' => String c t'
      end
  end.

(** [s.trim()] *)
Definition trim (s : string) : string := trimEnd (trimStart s).

Definition lowerChar (c : ascii) : ascii :=
  let n := nat_of_ascii c in
  if Nat.leb 65 n && Nat.leb n 90 then ascii_of_nat (n + 32) else c.

(** [s.toLowerCase()] on the letters A-Z.  The processor only compares the
    result with the literal ["activenote"], and no code unit outside A-Z
    lower-cases to one of its letters, so that comparison is exact. *)
Fixpoint toLowerCase (s : string) : string :=
  match s with
  | EmptyString => EmptyString
  | String c t => String (lowerChar c) (toLowerCase t)
  end.

(** [s.split(sep)] for a one-character separator.  The result of [split]
    is never empty, so it is given as its first part and the others. *)
Fixpoint split (sep : ascii) (s : string) : string * list string :=
  match s with
  | EmptyString => (EmptyString, [])
  | String c t =>
      let '(hd, tl) := split sep t in
      if Ascii.eqb c sep then (EmptyString, hd :: tl) else (String c hd, tl)
  end.

Definition splitList (sep : ascii) (s : string) : list string :=
  let '(hd, tl) := split sep s in hd :: tl.

(** [parts.join(sep)] *)
Fixpoint join (sep : string) (parts : list string) : string :=
  match parts with
  | [] => EmptyString
  | [p] => p
  | p :: rest => p +:+ sep +:+ join sep rest
  end.

(** A value of type [string | null] (or [string | undefined]): [None] is
    the absent value. *)
Definition truthy (v : option string) : bool :=
  match v with
  | Some (String _ _) => true
  | _ => false
  end.

(** [`${v}`] for a value of type [string | null] *)
Definition showNull (v : option string) : string := default "null" v.

(** [s !== ""], the truth value of a string *)
Definition nonEmpty (s : string) : bool :=
  match s with
  | EmptyString => false
  | String _ _ => true
  end.

End Js.

(** ** The two regular expressions of the processor *)

(** All matches of [/\{([^}]+)\}/g], left to right, each given by its capture
    group 1.  At an opening brace the inner loop [close] runs over [[^}]+];
    when the brace cannot be closed after at least one character the search
    resumes one character further, as the regex engine does.  After a match
    it resumes behind the closing brace. *)
Fixpoint matchAll (s : string) : list string :=
  match s with
  | EmptyString => []
  | String c t =>
      if Ascii.eqb c "{"%char then
        (fix close (acc r : string) {struct r} : list string :=
           match r with
           | EmptyString => matchAll t
           | String d r' =>
               if Ascii.eqb d "}"%char then
                 match acc with
                 | EmptyString => matchAll t
                 | String _ _ => acc :: matchAll r'
                 end
               else close (acc +:+ String d EmptyString) r'
           end) EmptyString t
      else matchAll t
  end.

(** [s.replace(/\{\}/g, "{selectedText}")] *)
Fixpoint replaceEmptyBraces (s : string) : string :=
  match s with
  | EmptyString => EmptyString
  | String c t =>
      match t with
      | String d t' =>
          if Ascii.eqb c "{"%char && Ascii.eqb d "}"%char
          then "{selectedText}" +:+ replaceEmptyBraces t'
          else String c (replaceEmptyBraces t)
      | EmptyString => String c EmptyString
      end
  end.

(** The line feed, and the blank line ["\n\n"] of the template literals. *)
Definition LF : string := String (ascii_of_nat 10) EmptyString.
Definition nn : string := LF +:+ LF.

(** ** Helpers imported from [@/utils]

    Their code is not part of the sources at hand: they are parameters of
    the development.  [getFileContent] is declared to return [string | null]
    (see [activeNoteContent]) and takes the heading as an optional third
    argument; [getNoteFileFromTitle] returns a file or nothing. *)
Class Utils (Vault TFile : Type) := {
  extractNoteTitles : string → list string;
  getFileContent : TFile → Vault → option string → option string;
  getFileName : TFile → string;
  getNoteFileFromTitle : Vault → string → option TFile;
  getNotesFromPath : Vault → string → list TFile;
  getNotesFromTags : Vault → list string → list TFile;
  processVariableNameForNotePath : string → string
}.

(** ** Effects: the vault, the notices shown to the user, the console *)

(** An argument of [console.log]. *)
Inductive JsVal :=
| VStr (s : string)
| VNull
| VUndefined.

Definition ofNull (v : option string) : JsVal :=
  match v with Some s => VStr s | None => VNull end.

Definition ofUndefined (v : option string) : JsVal :=
  match v with Some s => VStr s | None => VUndefined end.

Record World (Vault : Type) := mkWorld {
  vault : Vault;                    (* [this.vault] *)
  notices : list string;            (* every [new Notice(msg)], oldest first *)
  console : list (list JsVal)       (* every [console.log(...)], oldest first *)
}.
Arguments mkWorld {Vault}.
Arguments vault {Vault}.
Arguments notices {Vault}.
Arguments console {Vault}.

(** The state monad over the world. *)
Definition M (Vault A : Type) : Type := World Vault → A * World Vault.

#[global] Instance M_ret {Vault} : MRet (M Vault) := λ A a w, (a, w).
#[global] Instance M_bind {Vault} : MBind (M Vault) :=
  λ A B k m w, let '(a, w') := m w in k a w'.

(** [new Notice(msg)] *)
Definition Notice {Vault} (msg : string) : M Vault unit :=
  λ w, ((), mkWorld (vault w) (notices w ++ [msg]) (console w)).

(** [console.log(args)] *)
Definition consoleLog {Vault} (args : list JsVal) : M Vault unit :=
  λ w, ((), mkWorld (vault w) (notices w) (console w ++ [args])).

(** [await helper(..., this.vault, ...)]: a read of the vault. *)
Definition readVault {Vault A} (f : Vault → A) : M Vault A :=
  λ w, (f (vault w), w).

(** A [for (const x of xs)] loop over mutable locals [b]. *)
Fixpoint foldM {Vault A B} (f : B → A → M Vault B) (xs : list A) (b : B)
  : M Vault B :=
  match xs with
  | [] => mret b
  | x :: xs' => b' ← f b x; foldM f xs' b'
  end.

(** ** The processor *)

Record Note := mkNote { name : string; content : string }.

Section Processor.
Context {Vault TFile : Type} `{!Utils Vault TFile}.

Local Abbreviation M := (M Vault).

(** [const content = await getFileContent(file, this.vault);
     if (content) { notes.push({ name: getFileName(file), content }); }]
    with the [console.log('note content:', content)] of the path branch
    when [logged]. *)
Definition pushNote (logged : bool) (notes : list Note) (file : TFile)
  : M (list Note) :=
  c ← readVault (λ v, getFileContent file v None);
  _ ← (if logged then consoleLog [VStr "note content:"; ofNull c] else mret ());
  mret (match c with
        | Some (String _ _ as text) => notes ++ [mkNote (getFileName file) text]
        | _ => notes
        end).

(** The three branches of lines 157-191 that fill [notes] for one
    variable. *)
Definition variableNotes (variableName : string) (activeNote : option TFile)
  : M (list Note) :=
  if bool_decide (Js.toLowerCase variableName = "activenote") then
    match activeNote with
    | Some file => pushNote false [] file
    | None => _ ← Notice "No active note found."; mret []
    end
  else if Js.startsWith "#" variableName then
    let tagNames := Js.trim <$> Js.splitList "," (Js.slice1 variableName) in
    noteFiles ← readVault (λ v, getNotesFromTags v tagNames);
    foldM (pushNote false) noteFiles []
  else
    let processedVariableName := processVariableNameForNotePath variableName in
    noteFiles ← readVault (λ v, getNotesFromPath v processedVariableName);
    foldM (pushNote true) noteFiles [].

(** [notes.map((note) => `## ${note.name}\n\n${note.content}`).join("\n\n")] *)
Definition markdownContent (notes : list Note) : string :=
  Js.join nn ((λ note, "## " +:+ name note +:+ nn +:+ content note) <$> notes).

Definition warningFor (variableName : string) : string :=
  "Warning: No valid notes found for the provided path '" +:+ variableName +:+ "'.".

(** One turn of the [while] loop of [extractVariablesFromPrompt] on the
    capture [match[1]]. *)
Definition extractVariable (activeNote : option TFile)
    (variablesWithContent : list string) (capture : string)
  : M (list string) :=
  let variableName := Js.trim capture in
  notes ← variableNotes variableName activeNote;
  match notes with
  | _ :: _ => mret (variablesWithContent ++ [markdownContent notes])
  | [] => _ ← Notice (warningFor variableName); mret variablesWithContent
  end.

(** The [while ((match = variableRegex.exec(customPrompt)) !== null)] loop
    runs a fresh global regex from index 0 until it fails: it visits the
    matches of [matchAll].  *)
Definition extractVariablesFromPrompt (customPrompt : string)
    (activeNote : option TFile) : M (list string) :=
  _ ← consoleLog [VStr ("*** EXTRACT VARIABLES FROM PROMPT ***" +:+ LF +:+
                        "prompt: " +:+ customPrompt)];
  foldM (extractVariable activeNote) (matchAll customPrompt) [].

(** Lines 237-247: the empty-braces placeholder.  Returns the new values
    of [processedPrompt], [additionalInfo] and [activeNoteContent]. *)
Definition selectedTextInfo (processedPrompt selectedText : string)
    (activeNote : option TFile) : M (string * string * option string) :=
  if Js.includes "{}" processedPrompt then
    let processedPrompt := replaceEmptyBraces processedPrompt in
    if Js.nonEmpty selectedText then
      mret (processedPrompt, "selectedText:" +:+ nn +:+ " " +:+ selectedText, None)
    else
      match activeNote with
      | Some file =>
          activeNoteContent ← readVault (λ v, getFileContent file v None);
          mret (processedPrompt,
                "selectedText (entire active note):" +:+ nn +:+ " "
                  +:+ Js.showNull activeNoteContent,
                activeNoteContent)
      | None =>
          mret (processedPrompt,
                "selectedText:" +:+ nn +:+
                  " (No selected text or active note available)",
                None)
      end
  else mret (processedPrompt, EmptyString, None).

(** Lines 249-258: the loop over [i < variablesWithContent.length], here
    over the blocks from index [i] on. *)
Fixpoint mergeVariables (matches : list string)
    (activeNoteContent : option string) (i : nat)
    (variablesWithContent : list string) (additionalInfo : string) : string :=
  match variablesWithContent with
  | [] => additionalInfo
  | block :: rest =>
      mergeVariables matches activeNoteContent (S i) rest
        match matches !! i with
        | Some varname =>
            if bool_decide (Js.toLowerCase varname = "activenote")
               && Js.truthy activeNoteContent
            then additionalInfo
            else additionalInfo +:+ nn +:+ varname +:+ ":" +:+ nn +:+ block
        | None => additionalInfo
        end
  end.

(** [!matches.some((match) => match[1].includes(`[[${noteTitle}]]`))] is
    the negation of [covered]. *)
Definition covered (matches : list string) (noteTitle : string) : bool :=
  existsb (Js.includes ("[[" +:+ noteTitle +:+ "]]")) matches.

(** Lines 270-286: the body of the [if] for a title that is not covered.
    The locals are [additionalInfo] and [noteHeading]; [noteHeading] is
    declared before the loop (line 264). *)
Definition resolveNoteLink (noteTitle : string)
    (st : string * option string) : M (string * option string) :=
  let '(additionalInfo, noteHeading) := st in
  let '(parsedNoteTitle, noteHeading) :=
    if Js.includes "#" noteTitle then
      let '(titlePart, others) := Js.split "#" noteTitle in
      (Js.trim titlePart, Js.trim <$> head others)
    else (noteTitle, noteHeading) in
  _ ← consoleLog [VStr "note title passed to getNoteFileFromTitle:";
                  VStr parsedNoteTitle];
  _ ← consoleLog [VStr "note heading:"; ofUndefined noteHeading];
  noteFile ← readVault (λ v, getNoteFileFromTitle v parsedNoteTitle);
  match noteFile with
  | Some file =>
      _ ← consoleLog [VStr "getting note content for: "; VStr parsedNoteTitle];
      noteContent ← readVault (λ v, getFileContent file v noteHeading);
      _ ← consoleLog [VStr ("note content returned:" +:+ LF); ofNull noteContent];
      mret (additionalInfo +:+ nn +:+ "[[" +:+ noteTitle +:+ "]]:" +:+ nn
              +:+ Js.showNull noteContent,
            noteHeading)
  | None => mret (additionalInfo, noteHeading)
  end.

(** One turn of [for (const noteTitle of noteTitles)]. *)
Definition noteLinkStep (matches : list string)
    (st : string * option string) (noteTitle : string)
  : M (string * option string) :=
  if negb (covered matches noteTitle) then resolveNoteLink noteTitle st
  else mret st.

Definition processCustomPrompt (customPrompt selectedText : string)
    (activeNote : option TFile) : M string :=
  _ ← consoleLog [VStr "*** PROCESS CUSTOM PROMPT ***"];
  variablesWithContent ← extractVariablesFromPrompt customPrompt activeNote;
  let processedPrompt := customPrompt in
  let matches := matchAll processedPrompt in
  '(processedPrompt, additionalInfo, activeNoteContent) ←
    selectedTextInfo processedPrompt selectedText activeNote;
  let additionalInfo :=
    mergeVariables matches activeNoteContent 0 variablesWithContent
      additionalInfo in
  _ ← consoleLog [VStr "extract note titles from processed prompt:";
                  VStr processedPrompt];
  let noteTitles := extractNoteTitles processedPrompt in
  '(additionalInfo, _) ←
    foldM (noteLinkStep matches) noteTitles (additionalInfo, None);
  mret (processedPrompt +:+ nn +:+ additionalInfo).

End Processor.

(** ** The prompt store: [updatePrompt] *)

Module PromptStore.

(** What [vault.getAbstractFileByPath] finds at a path: a [TFile] with its
    content, or a folder. *)
Inductive Entry :=
| File (content : string)
| Folder.

(** The result of an [async] method: it returns, or it throws a
    [CustomError] with a message.  Both carry the repository as the call
    leaves it. *)
Inductive Outcome (S : Type) :=
| Returned (s : S)
| Threw (message : string) (s : S).
Arguments Returned {S}.
Arguments Threw {S}.

Definition duplicateTitleMessage : string :=
  "Error saving custom prompt. Please check if the title already exists.".

Section Store.
(** The usage records kept by the [PromptUsageStrategy] (its code is not
    part of the sources at hand), and [updateUsage(a, b).save()] on
    them. *)
Context {Usage : Type} (updateUsage : string → string → Usage → Usage).
(** [this.settings.customPromptsFolder] *)
Context (customPromptsFolder : string).

Record Store := mkStore {
  files : gmap string Entry;     (* the vault, by path *)
  usage : option Usage           (* [this.usageStrategy?] *)
}.

Definition promptPath (title : string) : string :=
  customPromptsFolder +:+ "/" +:+ title +:+ ".md".

(** [vault.rename(file, newPath)]: the entry moves to [newPath]. *)
Definition rename (path newPath : string) (fs : gmap string Entry)
  : gmap string Entry :=
  match fs !! path with
  | Some e => <[newPath := e]> (delete path fs)
  | None => fs
  end.

(** [vault.modify(file, content)] for the file found at [path]. *)
Definition modify (path content : string) (fs : gmap string Entry)
  : gmap string Entry :=
  match fs !! path with
  | Some (File _) => <[path := File content]> fs
  | _ => fs
  end.

(** After [vault.rename] the handle [file] names the new path, where
    [vault.modify] then writes. *)
Definition updatePrompt (originTitle newTitle content : string)
    (s : Store) : Outcome Store :=
  let filePath := promptPath originTitle in
  match files s !! filePath with
  | Some (File _) =>
      if bool_decide (originTitle ≠ newTitle) then
        let newFilePath := promptPath newTitle in
        match files s !! newFilePath with
        | Some _ => Threw duplicateTitleMessage s
        | None =>
            let usage' := updateUsage originTitle newTitle <$> usage s in
            let files' := rename filePath newFilePath (files s) in
            Returned (mkStore (modify newFilePath content files') usage')
        end
      else Returned (mkStore (modify filePath content (files s)) (usage s))
  | _ => Returned s
  end.

End Store.

Arguments Store : clear implicits.
Arguments mkStore {Usage}.
Arguments files {Usage}.
Arguments usage {Usage}.

(** [interface CustomPrompt] *)
Record CustomPrompt := mkPrompt { title : string; content : string }.

(** The store an outcome leaves. *)
Definition storeOf {S : Type} (o : Outcome S) : S :=
  match o with
  | Returned s => s
  | Threw _ s => s
  end.

Section Crud.
(** [recordUsage(title).save()] and [removeUnusedPrompts(titles).save()] of
    the [PromptUsageStrategy], whose code is not part of the sources at
    hand. *)
Context {Usage : Type}.
Context (recordUsage : string → Usage → Usage).
Context (removeUnusedPrompts : list string → Usage → Usage).
(** [normalizePath] of the host application, and the message of the error
    that [vault.create] throws at a path that is taken. *)
Context (normalizePath : string → string) (fileExistsMessage : string).
(** [this.settings.customPromptsFolder] *)
Context (customPromptsFolder : string).

(** [recordPromptUsage(title)] *)
Definition recordPromptUsage (title : string) (s : Store Usage) : Store Usage :=
  mkStore (files s) (recordUsage title <$> usage s).

(** [getPrompt(title)] *)
Definition getPrompt (title : string) (s : Store Usage) : option CustomPrompt :=
  let filePath := promptPath customPromptsFolder title in
  match files s !! filePath with
  | Some (File content) => Some (mkPrompt title content)
  | _ => None
  end.

(** [vault.adapter.exists(path)] *)
Definition pathExists (path : string) (fs : gmap string Entry) : bool :=
  bool_decide (is_Some (fs !! path)).

(** [vault.createFolder(path)] *)
Definition createFolder (path : string) (fs : gmap string Entry)
  : gmap string Entry :=
  <[path := Folder]> fs.

(** [savePrompt(title, content)]; [vault.create] throws when something is
    already at the path. *)
Definition savePrompt (title content : string) (s : Store Usage)
  : Outcome (Store Usage) :=
  let folderPath := normalizePath customPromptsFolder in
  let filePath := folderPath +:+ "/" +:+ title +:+ ".md" in
  let folderExists := pathExists folderPath (files s) in
  let fs := if negb folderExists then createFolder folderPath (files s)
            else files s in
  match fs !! filePath with
  | Some _ => Threw fileExistsMessage (mkStore fs (usage s))
  | None => Returned (mkStore (<[filePath := File content]> fs) (usage s))
  end.

(** [deletePrompt(title)] *)
Definition deletePrompt (title : string) (s : Store Usage) : Store Usage :=
  let filePath := promptPath customPromptsFolder title in
  match files s !! filePath with
  | Some (File _) =>
      mkStore (delete filePath (files s))
              (removeUnusedPrompts [title] <$> usage s)
  | _ => s
  end.

End Crud.

Section Listing.
(** [removeUnusedPrompts(titles).save()] and [compare(a, b)] of the
    [PromptUsageStrategy]; [vault.getFiles()] as the paths of the files, in
    the order of the vault; [basename] and [extension] of the file at a
    path; and [Array.prototype.sort] with a comparator.  None of them is
    part of the sources at hand. *)
Context {Usage : Type}.
Context (removeUnusedPrompts : list string → Usage → Usage).
Context (compare : Usage → string → string → Z).
Context (getFiles : gmap string Entry → list string).
Context (basename extension : string → string).
Context (sortBy : (CustomPrompt → CustomPrompt → Z) →
                  list CustomPrompt → list CustomPrompt).
Context (customPromptsFolder : string).

(** [await this.vault.read(file)] for the file at a path. *)
Definition readPath (fs : gmap string Entry) (path : string) : string :=
  match fs !! path with
  | Some (File content) => content
  | _ => EmptyString
  end.

(** [getAllPrompts()]: the prompts returned and the store left. *)
Definition getAllPrompts (s : Store Usage)
  : list CustomPrompt * Store Usage :=
  let folder := customPromptsFolder in
  let paths :=
    List.filter
      (λ path, Js.startsWith folder path
               && bool_decide (extension path = "md"))
      (getFiles (files s)) in
  let prompts :=
    (λ path, mkPrompt (basename path) (readPath (files s) path)) <$> paths in
  let usage' := removeUnusedPrompts (title <$> prompts) <$> usage s in
  (sortBy (λ a b, match usage' with
                  | Some u => compare u (title b) (title a)
                  | None => 0%Z
                  end) prompts,
   mkStore (files s) usage').

End Listing.

End PromptStore.

(** ** The process-wide instance: [getInstance] *)

Module Singleton.

(** The fields of a [CustomPromptProcessor]. *)
Record Instance (V S U : Type) := mkInstance {
  vaultOf : V;
  settingsOf : S;
  usageStrategyOf : option U
}.
Arguments mkInstance {V S U}.
Arguments vaultOf {V S U}.
Arguments settingsOf {V S U}.
Arguments usageStrategyOf {V S U}.

(** The static field [CustomPromptProcessor.instance] and the lines written
    by [console.warn]. *)
Record Static (V S U : Type) := mkStatic {
  instance : option (Instance V S U);
  warnings : list string
}.
Arguments mkStatic {V S U}.
Arguments instance {V S U}.
Arguments warnings {V S U}.

(** [CustomPromptProcessor.getInstance(vault, settings, usageStrategy)] *)
Definition getInstance {V S U} (vault : V) (settings : S)
    (usageStrategy : option U) (st : Static V S U)
  : Instance V S U * Static V S U :=
  match instance st with
  | Some i => (i, st)
  | None =>
      let warnings' :=
        match usageStrategy with
        | Some _ => warnings st
        | None => warnings st ++ ["PromptUsageStrategy not initialize"]
        end in
      let i := mkInstance vault settings usageStrategy in
      (i, mkStatic (Some i) warnings')
  end.

(** A sequence of calls, each with its arguments; the instances returned. *)
Fixpoint getInstances {V S U} (calls : list (V * S * option U))
    (st : Static V S U) : list (Instance V S U) * Static V S U :=
  match calls with
  | [] => ([], st)
  | (v, s, u) :: rest =>
      let '(i, st') := getInstance v s u st in
      let '(others, st'') := getInstances rest st' in
      (i :: others, st'')
  end.

End Singleton.

(** ** The expansion as a function of the vault

    What the processor returns and logs, written as functions of the vault;
    the properties below relate the processor to them. *)

Section Characterisation.
Context {Vault TFile : Type} `{!Utils Vault TFile}.
Implicit Types (w : World Vault) (v : Vault).

(** The world after some more notices and console lines. *)
Definition logged w (ns : list string) (cs : list (list JsVal)) : World Vault :=
  mkWorld (vault w) (notices w ++ ns) (console w ++ cs).

(** The note a file contributes: none when its content is null or empty. *)
Definition keptNote v (file : TFile) : list Note :=
  match getFileContent file v None with
  | Some (String _ _ as text) => [mkNote (getFileName file) text]
  | _ => []
  end.

Definition pushTrace (logIt : bool) v (file : TFile) : list (list JsVal) :=
  if logIt then [[VStr "note content:"; ofNull (getFileContent file v None)]]
  else [].

Definition isActiveNote (variableName : string) : bool :=
  bool_decide (Js.toLowerCase variableName = "activenote").

(** The files a variable matches. *)
Definition candidateFiles v (activeNote : option TFile) (variableName : string)
  : list TFile :=
  if isActiveNote variableName then option_list activeNote
  else if Js.startsWith "#" variableName then
    getNotesFromTags v (Js.trim <$> Js.splitList "," (Js.slice1 variableName))
  else getNotesFromPath v (processVariableNameForNotePath variableName).

(** The matched notes with non-empty content. *)
Definition keptNotes v (activeNote : option TFile) (variableName : string)
  : list Note :=
  flat_map (keptNote v) (candidateFiles v activeNote variableName).

Definition noActiveNotice (activeNote : option TFile) (variableName : string)
  : list string :=
  if isActiveNote variableName && negb (bool_decide (is_Some activeNote))
  then ["No active note found."] else [].

(** The block of one capture, and the notices of one capture. *)
Definition variableBlock v activeNote (capture : string) : list string :=
  match keptNotes v activeNote (Js.trim capture) with
  | [] => []
  | notes => [markdownContent notes]
  end.

Definition variableNotices v activeNote (capture : string) : list string :=
  noActiveNotice activeNote (Js.trim capture) ++
  match keptNotes v activeNote (Js.trim capture) with
  | [] => [warningFor (Js.trim capture)]
  | _ => []
  end.

Definition variableTrace v activeNote (capture : string) : list (list JsVal) :=
  let variableName := Js.trim capture in
  if isActiveNote variableName || Js.startsWith "#" variableName then []
  else flat_map (pushTrace true v) (candidateFiles v activeNote variableName).

Definition extractHeader (customPrompt : string) : list JsVal :=
  [VStr ("*** EXTRACT VARIABLES FROM PROMPT ***" +:+ LF +:+
         "prompt: " +:+ customPrompt)].

(** [processedPrompt] when the links are extracted. *)
Definition processedOf (customPrompt : string) : string :=
  if Js.includes "{}" customPrompt then replaceEmptyBraces customPrompt
  else customPrompt.

(** [additionalInfo] after lines 237-247. *)
Definition selectionInfo v (customPrompt selectedText : string)
    (activeNote : option TFile) : string :=
  if Js.includes "{}" customPrompt then
    if Js.nonEmpty selectedText then
      "selectedText:" +:+ nn +:+ " " +:+ selectedText
    else
      match activeNote with
      | Some file =>
          "selectedText (entire active note):" +:+ nn +:+ " "
            +:+ Js.showNull (getFileContent file v None)
      | None =>
          "selectedText:" +:+ nn +:+
            " (No selected text or active note available)"
      end
  else "".

(** [activeNoteContent] after lines 237-247. *)
Definition activeContentOf v (customPrompt selectedText : string)
    (activeNote : option TFile) : option string :=
  if Js.includes "{}" customPrompt && negb (Js.nonEmpty selectedText) then
    file ← activeNote; getFileContent file v None
  else None.

(** The title looked up and the heading in force for a link, given the
    heading left by the links before it. *)
Definition parseTitle (noteTitle : string) (noteHeading : option string)
  : string * option string :=
  if Js.includes "#" noteTitle then
    let '(titlePart, others) := Js.split "#" noteTitle in
    (Js.trim titlePart, Js.trim <$> head others)
  else (noteTitle, noteHeading).

(** The block a resolved link appends; nothing when no file is found. *)
Definition linkBlock v (noteTitle : string) (noteHeading : option string)
  : string :=
  let '(parsedNoteTitle, heading) := parseTitle noteTitle noteHeading in
  match getNoteFileFromTitle v parsedNoteTitle with
  | Some file =>
      nn +:+ "[[" +:+ noteTitle +:+ "]]:" +:+ nn
        +:+ Js.showNull (getFileContent file v heading)
  | None => ""
  end.

Definition linkTraceOne v (noteTitle : string) (noteHeading : option string)
  : list (list JsVal) :=
  let '(parsedNoteTitle, heading) := parseTitle noteTitle noteHeading in
  [VStr "note title passed to getNoteFileFromTitle:"; VStr parsedNoteTitle] ::
  [VStr "note heading:"; ofUndefined heading] ::
  match getNoteFileFromTitle v parsedNoteTitle with
  | Some file =>
      [ [VStr "getting note content for: "; VStr parsedNoteTitle];
        [VStr ("note content returned:" +:+ LF);
         ofNull (getFileContent file v heading)] ]
  | None => []
  end.

(** The blocks, the console lines and the last heading of the links that
    are resolved, in order. *)
Fixpoint linkBlocks v (titles : list string) (noteHeading : option string)
  : string :=
  match titles with
  | [] => ""
  | t :: ts =>
      linkBlock v t noteHeading +:+ linkBlocks v ts (parseTitle t noteHeading).2
  end.

Fixpoint linkTrace v (titles : list string) (noteHeading : option string)
  : list (list JsVal) :=
  match titles with
  | [] => []
  | t :: ts =>
      linkTraceOne v t noteHeading ++ linkTrace v ts (parseTitle t noteHeading).2
  end.

Fixpoint linkHeading (titles : list string) (noteHeading : option string)
  : option string :=
  match titles with
  | [] => noteHeading
  | t :: ts => linkHeading ts (parseTitle t noteHeading).2
  end.

(** The links that are not covered by a variable. *)
Definition uncoveredTitles (matches titles : list string) : list string :=
  List.filter (λ t, negb (covered matches t)) titles.

(** The string returned by [processCustomPrompt]. *)
Definition expansion v (customPrompt selectedText : string)
    (activeNote : option TFile) : string :=
  let matches := matchAll customPrompt in
  processedOf customPrompt +:+ nn +:+
  (mergeVariables matches
     (activeContentOf v customPrompt selectedText activeNote) 0
     (flat_map (variableBlock v activeNote) matches)
     (selectionInfo v customPrompt selectedText activeNote)
   +:+ linkBlocks v
         (uncoveredTitles matches (extractNoteTitles (processedOf customPrompt)))
         None).

(** The console lines of [processCustomPrompt]. *)
Definition expansionTrace v (customPrompt : string)
    (activeNote : option TFile) : list (list JsVal) :=
  let matches := matchAll customPrompt in
  [VStr "*** PROCESS CUSTOM PROMPT ***"] ::
  extractHeader customPrompt ::
  flat_map (variableTrace v activeNote) matches ++
  [VStr "extract note titles from processed prompt:";
   VStr (processedOf customPrompt)] ::
  linkTrace v
    (uncoveredTitles matches (extractNoteTitles (processedOf customPrompt)))
    None.

End Characterisation.

(** The first character of a string. *)
Definition headChar (s : string) : option ascii :=
  match s with String c _ => Some c | EmptyString => None end.

(** The text up to the first closing brace, and the text behind it. *)
Fixpoint splitClose (r : string) : option (string * string) :=
  match r with
  | EmptyString => None
  | String d r' =>
      if Ascii.eqb d "}"%char then Some (EmptyString, r')
      else match splitClose r' with
           | Some (x, rest) => Some (String d x, rest)
           | None => None
           end
  end.

(** A variable span: an opening brace, at least one character other than
    the closing brace, and a closing brace. *)
Definition hasVariableSpan (s : string) : Prop :=
  ∃ a x b, s = a +:+ "{" +:+ x +:+ "}" +:+ b ∧ x ≠ "" ∧ Js.includes "}" x = false.

(** Every character of a string passes a test. *)
Fixpoint allChars (P : ascii → bool) (s : string) : bool :=
  match s with
  | EmptyString => true
  | String c t => P c && allChars P t
  end.

(** ** The chat view: message history and saving the chat *)

Module Chat.

(** [history[k]]: [None] is [undefined], outside the array. *)
Definition arrayGet {A : Type} (l : list A) (k : Z) : option A :=
  if (k <? 0)%Z then None else l !! Z.to_nat k.

Inductive Direction := up | down.

(** [navigateHistory(direction)] with the state [historyIndex]: the text
    returned and the new index.  [history] is [plugin.userMessageHistory]. *)
Definition navigateHistory (history : list string)
    (inputMessageTop inputMessageBottom : string)
    (direction : Direction) (historyIndex : Z) : option string * Z :=
  let len := Z.of_nat (length history) in
  let input :=
    if Js.nonEmpty inputMessageTop then inputMessageTop
    else inputMessageBottom in
  match direction with
  | up =>
      if (historyIndex <? len - 1)%Z then
        (arrayGet history (len - 1 - historyIndex - 1), (historyIndex + 1)%Z)
      else (Some input, historyIndex)
  | down =>
      if (historyIndex >? -1)%Z then
        (if (historyIndex =? 0)%Z then Some EmptyString
         else arrayGet history (len - 1 - historyIndex + 1),
         (historyIndex - 1)%Z)
      else (Some input, historyIndex)
  end.

(** The index after pressing "up" [n] times in a row. *)
Definition afterUps (history : list string) (top bottom : string)
    (n : nat) (historyIndex : Z) : Z :=
  Nat.iter n (λ i, (navigateHistory history top bottom up i).2) historyIndex.

(** *** The name of the note a chat is saved to *)

(** [s.split(/\s+/)]: the parts between the runs of white space. *)
Fixpoint splitWsFrom (cur : string) (inRun : bool) (s : string) : list string :=
  match s with
  | EmptyString => [cur]
  | String c t =>
      if Js.isWhiteSpace c then
        if inRun then splitWsFrom EmptyString true t
        else cur :: splitWsFrom EmptyString true t
      else splitWsFrom (cur +:+ String c EmptyString) false t
  end.

Definition splitWs (s : string) : list string := splitWsFrom EmptyString false s.

(** The characters of the class removed from a file name: backslash,
    slash, colon, asterisk, question mark, double quote, the angle brackets
    and the bar. *)
Definition invalidFileNameChar (c : ascii) : bool :=
  bool_decide (nat_of_ascii c ∈ [92; 47; 58; 42; 63; 34; 60; 62; 124]).

(** [s.replace(...)] of that class by the empty string, everywhere. *)
Fixpoint removeInvalid (s : string) : string :=
  match s with
  | EmptyString => EmptyString
  | String c t =>
      if invalidFileNameChar c then removeInvalid t
      else String c (removeInvalid t)
  end.

(** [s.slice(0, n)] *)
Fixpoint sliceTo (n : nat) (s : string) : string :=
  match n, s with
  | S n', String c t => String c (sliceTo n' t)
  | _, _ => EmptyString
  end.

(** [s.replace(/\s+/g, "_")] *)
Fixpoint replaceWsFrom (inRun : bool) (s : string) : string :=
  match s with
  | EmptyString => EmptyString
  | String c t =>
      if Js.isWhiteSpace c then
        if inRun then replaceWsFrom true t
        else String "_" (replaceWsFrom true t)
      else String c (replaceWsFrom false t)
  end.

Definition replaceWs (s : string) : string := replaceWsFrom false s.

(** [firstTenWords]: from the first user message, or ["Untitled Chat"]. *)
Definition firstTenWords (firstUserMessage : option string) : string :=
  match firstUserMessage with
  | Some message =>
      Js.trim (removeInvalid (Js.join " " (take 10 (splitWs message))))
  | None => "Untitled Chat"
  end.

(** [sanitizedFileName] *)
Definition sanitizedFileName (firstUserMessage : option string)
    (timestampFileName : string) : string :=
  replaceWs (sliceTo 100 (firstTenWords firstUserMessage) +:+ "@"
             +:+ timestampFileName).

(** *** Saving the chat as a note *)

(** The fields of a [ChatMessage] that the chat view reads; a message may
    have no timestamp. *)
Record Timestamp := mkTimestamp { epoch : Z; display : string }.

Record ChatMessage := mkMessage {
  message : string;
  sender : string;
  isVisible : bool;
  timestamp : option Timestamp
}.

(** The vault, the notices, the lines of [console.error] and the files
    opened in a leaf. *)
Record View := mkView {
  files : gmap string PromptStore.Entry;
  shown : list string;
  errors : list string;
  opened : list string
}.

Definition notify (msg : string) (v : View) : View :=
  mkView (files v) (shown v ++ [msg]) (errors v) (opened v).

Section SaveAsNote.
(** [Date.now()]; the decimal form of a number in a template literal; the
    [fileName] of [formatDateTime(new Date(epoch))] (utils, not part of the
    sources at hand); and the constant [USER_SENDER]. *)
Context (now : Z) (showNumber : Z → string) (formatFileName : Z → string).
Context (USER_SENDER : string).
(** The props [defaultSaveFolder], [currentModelKey] and
    [settings.defaultConversationTag]. *)
Context (defaultSaveFolder currentModelKey defaultConversationTag : string).

(** [timestamp?.epoch || Date.now()] *)
Definition firstEpoch (m : ChatMessage) : Z :=
  match timestamp m with
  | Some t => if (epoch t =? 0)%Z then now else epoch t
  | None => now
  end.

(** [`**${sender}**: ${message}\n[Timestamp: ${timestamp?.display}]`] *)
Definition formatMessage (m : ChatMessage) : string :=
  "**" +:+ sender m +:+ "**: " +:+ message m +:+ LF +:+ "[Timestamp: "
  +:+ match timestamp m with
      | Some t => display t
      | None => "undefined"
      end
  +:+ "]".

Definition chatContentOf (visibleMessages : list ChatMessage) : string :=
  Js.join nn (formatMessage <$> visibleMessages).

Definition noteFileNameOf (visibleMessages : list ChatMessage)
    (firstMessageEpoch : Z) : string :=
  let firstUserMessage :=
    find (λ m, bool_decide (sender m = USER_SENDER)) visibleMessages in
  defaultSaveFolder +:+ "/" +:+
  sanitizedFileName (message <$> firstUserMessage)
    (formatFileName firstMessageEpoch) +:+ ".md".

Definition noteContentOf (visibleMessages : list ChatMessage)
    (firstMessageEpoch : Z) : string :=
  "---" +:+ LF +:+
  "epoch: " +:+ showNumber firstMessageEpoch +:+ LF +:+
  "modelKey: " +:+ currentModelKey +:+ LF +:+
  "tags:" +:+ LF +:+
  "  - " +:+ defaultConversationTag +:+ LF +:+
  "---" +:+ nn +:+ chatContentOf visibleMessages.

(** [handleSaveAsNote(openNote)], where the app instance is available.
    [vault.create] throws when something is at the path; the [catch] then
    writes to the console and shows the failure notice. *)
Definition handleSaveAsNote (chatHistory : list ChatMessage)
    (openNote : bool) (v : View) : View :=
  let visibleMessages := List.filter isVisible chatHistory in
  match visibleMessages with
  | [] => notify "No messages to save." v
  | first :: _ =>
      let firstMessageEpoch := firstEpoch first in
      let fs :=
        match files v !! defaultSaveFolder with
        | Some _ => files v
        | None => <[defaultSaveFolder := PromptStore.Folder]> (files v)
        end in
      let noteFileName := noteFileNameOf visibleMessages firstMessageEpoch in
      let noteContent := noteContentOf visibleMessages firstMessageEpoch in
      match fs !! noteFileName with
      | Some (PromptStore.File _) =>
          let v' :=
            notify ("Chat updated in existing note: " +:+ noteFileName)
              (mkView (<[noteFileName := PromptStore.File noteContent]> fs)
                 (shown v) (errors v) (opened v)) in
          if openNote
          then mkView (files v') (shown v') (errors v')
                 (opened v' ++ [noteFileName])
          else v'
      | None =>
          let v' :=
            notify ("Chat saved as new note: " +:+ noteFileName)
              (mkView (<[noteFileName := PromptStore.File noteContent]> fs)
                 (shown v) (errors v) (opened v)) in
          if openNote
          then mkView (files v') (shown v') (errors v')
                 (opened v' ++ [noteFileName])
          else v'
      | Some PromptStore.Folder =>
          notify "Failed to save chat as note. Check console for details."
            (mkView fs (shown v)
               (errors v ++ ["Error saving chat as note:"]) (opened v))
      end
  end.

End SaveAsNote.

End Chat.

(** ** The header picker: [MultiStepModal] *)

Module Headers.

(** The characters that [.] does not match. *)
Definition isLineTerminator (c : ascii) : bool :=
  let n := nat_of_ascii c in Nat.eqb n 10 || Nat.eqb n 13.

(** The longest prefix that [.*] matches. *)
Fixpoint dotStar (s : string) : string :=
  match s with
  | EmptyString => EmptyString
  | String c t => if isLineTerminator c then EmptyString else String c (dotStar t)
  end.

(** The text behind the leading ["#"] characters. *)
Fixpoint dropHashes (s : string) : string :=
  match s with
  | EmptyString => EmptyString
  | String c t => if Ascii.eqb c "#"%char then dropHashes t else s
  end.

(** A run of [n] characters ["#"]. *)
Fixpoint hashes (n : nat) : string :=
  match n with
  | O => EmptyString
  | S n' => String "#" (hashes n')
  end.

(** [line.match] with the regular expression of a header line: at the
    start one or more ["#"], then white space, then the rest of the line.
    The result is capture group 2, when the line matches. *)
Definition headerMatch (line : string) : option string :=
  match line with
  | String c t =>
      if Ascii.eqb c "#"%char then
        match dropHashes t with
        | String d r =>
            if Js.isWhiteSpace d then Some (dotStar (Js.trimStart r))
            else None
        | EmptyString => None
        end
      else None
  | EmptyString => None
  end.

(** The callback of [vault.read(file).then]: the headers pushed for the
    lines of the content. *)
Definition headersOfContent (content : string) : list string :=
  omap headerMatch (Js.splitList (ascii_of_nat 10) content).

End Headers.

(** ** The model selector: [getModelKey] *)

Module ModelKey.

(** The fields of a [CustomModel] that the selector reads. *)
Record CustomModel := mkModel {
  name : string;
  provider : string;
  enabled : bool
}.

(** [`${model.name}|${model.provider}`] *)
Definition getModelKey (model : CustomModel) : string :=
  name model +:+ "|" +:+ provider model.

(** The keys of the options of the selector: the enabled models. *)
Definition optionKeys (activeModels : list CustomModel) : list string :=
  getModelKey <$> List.filter enabled activeModels.

End ModelKey.

(** ** The merge loop as a pairing of spans and blocks *)

(** [`\n\n${varname}:\n\n${block}`] for a span and a block. *)
Definition labelledBlock (p : string * string) : string :=
  nn +:+ p.1 +:+ ":" +:+ nn +:+ p.2.

(** The pairs that the merge loop does not skip. *)
Definition keptPair (activeNoteContent : option string) (p : string * string)
  : bool :=
  negb (bool_decide (Js.toLowerCase p.1 = "activenote")
        && Js.truthy activeNoteContent).

Definition concatStrings (l : list string) : string :=
  foldr String.append EmptyString l.

(** ** A small vault for the examples *)

Module Demo.

Record DemoFile := mkFile {
  title : string;                       (* the file's base name *)
  path : string;
  tags : list string;
  text : string;                        (* the full content *)
  sections : list (string * string)     (* heading, text of that section *)
}.

Definition lookupFile (v : list DemoFile) (t : string) : option DemoFile :=
  find (λ f, bool_decide (title f = t)) v.

(** Modelled from the spec: [extractNoteTitles] (utils, not under src/)
    extracts all [[[...]]] spans; a span runs from an opening pair of
    brackets to the first closing pair behind it. *)
Fixpoint extractNoteTitles (s : string) : list string :=
  match s with
  | EmptyString => []
  | String c t =>
      match t with
      | String c' t' =>
          if Ascii.eqb c "["%char && Ascii.eqb c' "["%char then
            (fix close (acc r : string) {struct r} : list string :=
               match r with
               | EmptyString => extractNoteTitles t
               | String d r' =>
                   match r' with
                   | String d' r'' =>
                       if Ascii.eqb d "]"%char && Ascii.eqb d' "]"%char
                       then acc :: extractNoteTitles r''
                       else close (acc +:+ String d EmptyString) r'
                   | EmptyString => extractNoteTitles t
                   end
               end) EmptyString t'
          else extractNoteTitles t
      | EmptyString => []
      end
  end.

(** Modelled from the spec: [getFileContent] (utils, not under src/) reads
    the full content of a file, or with a heading only the section under
    that heading.  The example vault stores the sections in a table. *)
Definition getFileContent (file : string) (v : list DemoFile)
    (heading : option string) : option string :=
  f ← lookupFile v file;
  match heading with
  | None => Some (text f)
  | Some h => snd <$> find (λ p, bool_decide (fst p = h)) (sections f)
  end.

(** Modelled from the spec: [getNoteFileFromTitle] (utils, not under src/)
    resolves a title to a file by its name. *)
Definition getNoteFileFromTitle (v : list DemoFile) (t : string)
  : option string :=
  title <$> lookupFile v t.

(** Modelled from the spec: [getNotesFromPath] (utils, not under src/)
    lists the notes whose path matches, in repository order. *)
Definition getNotesFromPath (v : list DemoFile) (p : string) : list string :=
  title <$> filter (λ f, path f = p) v.

(** Modelled from the spec: [getNotesFromTags] (utils, not under src/)
    lists the notes carrying any of the tags, in repository order. *)
Definition getNotesFromTags (v : list DemoFile) (ts : list string)
  : list string :=
  title <$> filter (λ f, existsb (λ t, bool_decide (t ∈ tags f)) ts = true) v.

(** Modelled from the spec: [processVariableNameForNotePath] (utils, not
    under src/) normalises a variable name to a path pattern; the spec
    does not say how, and the example vault takes the name as it is. *)
Definition processVariableNameForNotePath (variableName : string) : string :=
  variableName.

(** Modelled from the spec: [getFileName] (utils, not under src/) gives the
    display name of a note; the files of the example vault are named by
    their title. *)
Definition getFileName (file : string) : string := file.

#[global] Instance utils : Utils (list DemoFile) string :=
  Build_Utils _ _ extractNoteTitles getFileContent getFileName
    getNoteFileFromTitle getNotesFromPath getNotesFromTags
    processVariableNameForNotePath.

Definition demoVault : list DemoFile :=
  [ mkFile "A" "notes/A" ["idea"] "intro of A. body of A."
      [("Intro", "intro of A.")];
    mkFile "B" "notes/B" [] "all of B" [];
    mkFile "E" "drafts" [] "" [];
    mkFile "D" "drafts" ["idea"] "draft text" [];
    mkFile "Z" "blank" [] "" [] ].

(** A world with one notice and one console line already there. *)
Definition demoWorld : World (list DemoFile) :=
  mkWorld demoVault ["earlier notice"] [[VStr "earlier line"]].

(** Modelled from the spec: [updateUsage] (promptUsageStrategy, not under
    src/) moves the usage record of the old title to the new title. *)
Definition updateUsage (originTitle newTitle : string) (u : gmap string N)
  : gmap string N :=
  match u !! originTitle with
  | Some t => <[newTitle := t]> (delete originTitle u)
  | None => u
  end.

Definition demoStore : PromptStore.Store (gmap string N) :=
  PromptStore.mkStore
    {[ "prompts/B.md" := PromptStore.File "text of B" ]}
    (Some {[ "B" := 7%N ]}).

Definition demoStoreAB : PromptStore.Store (gmap string N) :=
  PromptStore.mkStore
    {[ "prompts/A.md" := PromptStore.File "text of A";
       "prompts/B.md" := PromptStore.File "text of B" ]}
    (Some {[ "A" := 3%N; "B" := 7%N ]}).

(** Modelled from the spec: [removeUnusedPrompts] (promptUsageStrategy, not
    under src/) prunes the usage records of the titles that are not in the
    list. *)
Definition removeUnusedPrompts (titles : list string) (u : gmap string N)
  : gmap string N :=
  filter (λ kv, kv.1 ∈ titles) u.

(** Modelled from the spec: [compare] (promptUsageStrategy, not under src/)
    orders titles by their usage score. *)
Definition compare (u : gmap string N) (a b : string) : Z :=
  (Z.of_N (default 0%N (u !! a)) - Z.of_N (default 0%N (u !! b)))%Z.

(** The files of the example store, as [vault.getFiles()] lists them. *)
Definition getFiles (fs : gmap string PromptStore.Entry) : list string :=
  omap (λ kv, match kv.2 with
              | PromptStore.File _ => Some kv.1
              | PromptStore.Folder => None
              end) (map_to_list fs).

(** The base name and the extension of the file at a path: the name behind
    the last slash, cut at its last dot. *)
Definition fileNameOf (path : string) : string * list string :=
  Js.split "." (List.last (Js.splitList "/" path) EmptyString).

Definition extension (path : string) : string :=
  List.last (fileNameOf path).2 EmptyString.

Definition basename (path : string) : string :=
  Js.join "." ((fileNameOf path).1 :: removelast (fileNameOf path).2).

(** A stable sort by insertion, for [Array.prototype.sort]. *)
Fixpoint insertBy {A : Type} (f : A → A → Z) (x : A) (l : list A) : list A :=
  match l with
  | [] => [x]
  | y :: l' => if (f x y <=? 0)%Z then x :: l else y :: insertBy f x l'
  end.

Definition sortBy {A : Type} (f : A → A → Z) (l : list A) : list A :=
  foldr (insertBy f) [] l.

(** The sent messages, oldest first. *)
Definition demoHistory : list string := ["first"; "second"; "third"].

(** A chat with a hidden prompt message between two visible ones. *)
Definition demoChat : list Chat.ChatMessage :=
  [ Chat.mkMessage "What is: a/b?" "user" true
      (Some (Chat.mkTimestamp 1700 "2023/11/14 22:13:20"));
    Chat.mkMessage "What is: a/b? and the notes" "user" false
      (Some (Chat.mkTimestamp 1700 "2023/11/14 22:13:20"));
    Chat.mkMessage "A fraction." "ai" true None ].

Definition demoView : Chat.View := Chat.mkView ∅ [] [] [].

End Demo.

(** * Properties *)

(** ** The model on small inputs *)

Example matchAll_spans :
  matchAll "a {x} {} {{y}} { z }{" = ["x"; "{y"; " z "].
Proof. reflexivity. Qed.

Example matchAll_unclosed : matchAll "a {x {" = [].
Proof. reflexivity. Qed.

Example replaceEmptyBraces_example :
  replaceEmptyBraces "a{}b{{}}{x}{" = "a{selectedText}b{{selectedText}}{x}{".
Proof. reflexivity. Qed.

Example split_example : Js.splitList "#" "A # h1#h2" = ["A "; " h1"; "h2"].
Proof. reflexivity. Qed.

Example split_trailing : Js.splitList "," "a," = ["a"; ""].
Proof. reflexivity. Qed.

Example trim_example : Js.trim ("  a b " +:+ LF) = "a b".
Proof. reflexivity. Qed.

Example toLowerCase_example : Js.toLowerCase "ActiveNote{Z@[" = "activenote{z@[".
Proof. reflexivity. Qed.

Example parseTitle_example :
  parseTitle "A # Intro#more" None = ("A", Some "Intro").
Proof. reflexivity. Qed.

Example parseTitle_plain : parseTitle "B" (Some "Intro") = ("B", Some "Intro").
Proof. reflexivity. Qed.

Example extractNoteTitles_example :
  extractNoteTitles "see [[A#Intro]] and [[B]] [[" = ["A#Intro"; "B"].
Proof. reflexivity. Qed.

Example variable_warning_example :
  notices (processCustomPrompt "{drafts} {blank}" "" None Demo.demoWorld).2 =
    ["earlier notice"; warningFor "blank"].
Proof. reflexivity. Qed.

Example active_note_skipped_example :
  (processCustomPrompt "{} {activeNote}" "" (Some "B") Demo.demoWorld).1 =
    "{selectedText} {activeNote}" +:+ nn +:+
    "selectedText (entire active note):" +:+ nn +:+ " all of B".
Proof. reflexivity. Qed.

Example updatePrompt_rename_example :
  PromptStore.updatePrompt Demo.updateUsage "prompts" "A" "C" "new text"
    Demo.demoStoreAB =
  PromptStore.Returned
    (PromptStore.mkStore
       {[ "prompts/C.md" := PromptStore.File "new text";
          "prompts/B.md" := PromptStore.File "text of B" ]}
       (Some {[ "C" := 3%N; "B" := 7%N ]})).
Proof. by vm_compute. Qed.

Example updatePrompt_same_title_example :
  PromptStore.updatePrompt Demo.updateUsage "prompts" "A" "A" "new text"
    Demo.demoStoreAB =
  PromptStore.Returned
    (PromptStore.mkStore
       {[ "prompts/A.md" := PromptStore.File "new text";
          "prompts/B.md" := PromptStore.File "text of B" ]}
       (Some {[ "A" := 3%N; "B" := 7%N ]})).
Proof. by vm_compute. Qed.

(** ** The string methods *)

Lemma append_cons (c : ascii) (s t : string) :
  String c s +:+ t = String c (s +:+ t).
Proof. reflexivity. Qed.

Lemma append_nil_l (s : string) : "" +:+ s = s.
Proof. reflexivity. Qed.

Lemma append_nil_r (s : string) : s +:+ "" = s.
Proof. induction s as [|c s IH]; [done|]. by rewrite append_cons, IH. Qed.

Lemma append_assoc (a b c : string) : (a +:+ b) +:+ c = a +:+ (b +:+ c).
Proof.
  induction a as [|x a IH]; [done|]. by rewrite !append_cons, IH.
Qed.

(** ** Running the monad: what a computation returns and what it logs *)

Section Runs.
Context {Vault : Type}.
Implicit Types w : World Vault.

Lemma logged_nil w : logged w [] [] = w.
Proof. destruct w; unfold logged; simpl. by rewrite !app_nil_r. Qed.

Lemma logged_logged w ns cs ns' cs' :
  logged (logged w ns cs) ns' cs' = logged w (ns ++ ns') (cs ++ cs').
Proof. unfold logged; simpl. by rewrite !app_assoc. Qed.

Lemma run_bind {A B} (m : M Vault A) (k : A → M Vault B) w a w' :
  m w = (a, w') → (m ≫= k) w = k a w'.
Proof. intros E. unfold mbind, M_bind. by rewrite E. Qed.

Lemma run_ret {A} (a : A) w : (mret a : M Vault A) w = (a, logged w [] []).
Proof. by rewrite logged_nil. Qed.

Lemma run_Notice msg w : Notice msg w = ((), logged w [msg] []).
Proof. unfold Notice, logged. by rewrite app_nil_r. Qed.

Lemma run_consoleLog args w : consoleLog args w = ((), logged w [] [args]).
Proof. unfold consoleLog, logged. by rewrite app_nil_r. Qed.

Lemma run_readVault {A} (f : Vault → A) w :
  readVault f w = (f (vault w), logged w [] []).
Proof. by rewrite logged_nil. Qed.

End Runs.

(** One step of a run: the first computation of a bind is run with the
    lemma given, or with the lemma of a primitive. *)
Tactic Notation "run_with" uconstr(lem) := erewrite run_bind by apply lem.

Ltac run_prim :=
  first [ run_with run_consoleLog | run_with run_readVault
        | run_with run_Notice | run_with run_ret ].

(** ** Variable resolution as a function of the vault *)

Section Variables.
Context {Vault TFile : Type} `{!Utils Vault TFile}.
Implicit Types (w : World Vault) (v : Vault).

Lemma pushNote_run logIt notes file w :
  pushNote logIt notes file w =
    (notes ++ keptNote (vault w) file,
     logged w [] (pushTrace logIt (vault w) file)).
Proof.
  unfold pushNote.
  run_prim.
  unfold keptNote, pushTrace. destruct logIt.
  - run_prim.
    rewrite run_ret, !logged_logged. simpl.
    by destruct (getFileContent file (vault w) None) as [[|c t]|];
      rewrite ?app_nil_r.
  - run_prim.
    rewrite run_ret, !logged_logged. simpl.
    by destruct (getFileContent file (vault w) None) as [[|c t]|];
      rewrite ?app_nil_r.
Qed.

Lemma pushNotes_run logIt files : ∀ notes w,
  foldM (pushNote logIt) files notes w =
    (notes ++ flat_map (keptNote (vault w)) files,
     logged w [] (flat_map (pushTrace logIt (vault w)) files)).
Proof.
  induction files as [|file files IH]; intros notes w; simpl.
  - by rewrite run_ret, app_nil_r.
  - run_with pushNote_run.
    rewrite IH, logged_logged. simpl. by rewrite app_assoc.
Qed.

Lemma variableNotes_run variableName activeNote w :
  variableNotes variableName activeNote w =
    (keptNotes (vault w) activeNote variableName,
     logged w (noActiveNotice activeNote variableName)
       (if isActiveNote variableName || Js.startsWith "#" variableName then []
        else flat_map (pushTrace true (vault w))
               (candidateFiles (vault w) activeNote variableName))).
Proof.
  unfold variableNotes, keptNotes, candidateFiles, noActiveNotice, isActiveNote.
  destruct (bool_decide (Js.toLowerCase variableName = "activenote")); simpl.
  - destruct activeNote as [file|]; simpl.
    + rewrite pushNote_run. simpl. by rewrite app_nil_r.
    + run_prim.
      by rewrite run_ret, logged_logged.
  - destruct (Js.startsWith "#" variableName); simpl.
    + run_prim.
      rewrite pushNotes_run, logged_logged. simpl.
      f_equal. f_equal. by induction (getNotesFromTags _ _).
    + run_prim.
      by rewrite pushNotes_run, logged_logged.
Qed.

Lemma extractVariable_run activeNote vars capture w :
  extractVariable activeNote vars capture w =
    (vars ++ variableBlock (vault w) activeNote capture,
     logged w (variableNotices (vault w) activeNote capture)
       (variableTrace (vault w) activeNote capture)).
Proof.
  unfold extractVariable, variableBlock, variableNotices, variableTrace.
  run_with variableNotes_run.
  destruct (keptNotes (vault w) activeNote (Js.trim capture)) as [|n ns].
  - run_prim.
    by rewrite run_ret, !logged_logged, !app_nil_r.
  - by rewrite run_ret, !logged_logged, !app_nil_r.
Qed.

Lemma extractVariables_loop_run activeNote captures : ∀ vars w,
  foldM (extractVariable activeNote) captures vars w =
    (vars ++ flat_map (variableBlock (vault w) activeNote) captures,
     logged w (flat_map (variableNotices (vault w) activeNote) captures)
       (flat_map (variableTrace (vault w) activeNote) captures)).
Proof.
  induction captures as [|capture captures IH]; intros vars w; simpl.
  - by rewrite run_ret, app_nil_r.
  - run_with extractVariable_run.
    rewrite IH, logged_logged. simpl. by rewrite app_assoc.
Qed.

Lemma extractVariablesFromPrompt_run customPrompt activeNote w :
  extractVariablesFromPrompt customPrompt activeNote w =
    (flat_map (variableBlock (vault w) activeNote) (matchAll customPrompt),
     logged w
       (flat_map (variableNotices (vault w) activeNote) (matchAll customPrompt))
       (extractHeader customPrompt ::
        flat_map (variableTrace (vault w) activeNote) (matchAll customPrompt))).
Proof.
  unfold extractVariablesFromPrompt.
  run_prim.
  by rewrite extractVariables_loop_run, logged_logged.
Qed.

End Variables.

(** ** The expansion as a function of the vault *)

Section Expansion.
Context {Vault TFile : Type} `{!Utils Vault TFile}.
Implicit Types (w : World Vault) (v : Vault).

Lemma selectedTextInfo_run customPrompt selectedText activeNote w :
  selectedTextInfo customPrompt selectedText activeNote w =
    ((processedOf customPrompt,
      selectionInfo (vault w) customPrompt selectedText activeNote,
      activeContentOf (vault w) customPrompt selectedText activeNote), w).
Proof.
  unfold selectedTextInfo, processedOf, selectionInfo, activeContentOf.
  destruct (Js.includes "{}" customPrompt); [|done].
  destruct (Js.nonEmpty selectedText); [done|].
  by destruct activeNote.
Qed.

Lemma resolveNoteLink_run noteTitle additionalInfo noteHeading w :
  resolveNoteLink noteTitle (additionalInfo, noteHeading) w =
    ((additionalInfo +:+ linkBlock (vault w) noteTitle noteHeading,
      (parseTitle noteTitle noteHeading).2),
     logged w [] (linkTraceOne (vault w) noteTitle noteHeading)).
Proof.
  unfold resolveNoteLink, linkBlock, linkTraceOne, parseTitle.
  destruct (Js.includes "#" noteTitle);
    [destruct (Js.split "#" noteTitle) as [titlePart others]|];
    (do 3 run_prim; simpl;
     destruct (getNoteFileFromTitle _ _) as [file|];
     [ do 3 run_prim; by rewrite run_ret, !logged_logged
     | rewrite run_ret, !logged_logged; simpl;
       by rewrite append_nil_r ]).
Qed.

Lemma noteLinkStep_covered matches st noteTitle w :
  covered matches noteTitle = true →
  noteLinkStep matches st noteTitle w = (st, w).
Proof. unfold noteLinkStep. by intros ->. Qed.

Lemma noteLinkStep_uncovered matches st noteTitle w :
  covered matches noteTitle = false →
  noteLinkStep matches st noteTitle w = resolveNoteLink noteTitle st w.
Proof. unfold noteLinkStep. by intros ->. Qed.

Lemma noteLinkLoop_run matches titles : ∀ additionalInfo noteHeading w,
  foldM (noteLinkStep matches) titles (additionalInfo, noteHeading) w =
    ((additionalInfo +:+
        linkBlocks (vault w) (uncoveredTitles matches titles) noteHeading,
      linkHeading (uncoveredTitles matches titles) noteHeading),
     logged w []
       (linkTrace (vault w) (uncoveredTitles matches titles) noteHeading)).
Proof.
  induction titles as [|t titles IH]; intros info h w; simpl.
  - by rewrite run_ret, append_nil_r.
  - destruct (covered matches t) eqn:Hc; simpl.
    + erewrite run_bind by (by apply noteLinkStep_covered). apply IH.
    + erewrite run_bind
        by (rewrite noteLinkStep_uncovered by done; apply resolveNoteLink_run).
      rewrite IH, logged_logged. simpl. by rewrite append_assoc.
Qed.

Lemma processCustomPrompt_run customPrompt selectedText activeNote w :
  processCustomPrompt customPrompt selectedText activeNote w =
    (expansion (vault w) customPrompt selectedText activeNote,
     logged w
       (flat_map (variableNotices (vault w) activeNote) (matchAll customPrompt))
       (expansionTrace (vault w) customPrompt activeNote)).
Proof.
  unfold processCustomPrompt, expansion, expansionTrace.
  run_prim.
  run_with extractVariablesFromPrompt_run.
  run_with selectedTextInfo_run.
  cbv beta iota.
  run_prim.
  run_with noteLinkLoop_run.
  cbv beta iota.
  rewrite run_ret, !logged_logged. simpl.
  by rewrite !app_nil_r, <- !app_assoc.
Qed.

End Expansion.

(** ** Substrings *)

Lemma prefix_spec (n s : string) :
  String.prefix n s = true ↔ ∃ b, s = n +:+ b.
Proof.
  revert s. induction n as [|c n IH]; intros s.
  - split; [intros _; by exists s | by destruct s].
  - destruct s as [|d s].
    + split; [done | intros [b Hb]; discriminate].
    + simpl. destruct (ascii_dec c d) as [->|Hne].
      * rewrite IH. split; intros [b Hb]; exists b.
        -- by rewrite append_cons, <- Hb.
        -- rewrite append_cons in Hb. by injection Hb.
      * split; [done | intros [b Hb]].
        rewrite append_cons in Hb. injection Hb as Hd _. by destruct Hne.
Qed.

Lemma includes_unfold (n s : string) :
  Js.includes n s =
    String.prefix n s ||
    match s with
    | EmptyString => false
    | String _ t => Js.includes n t
    end.
Proof. by destruct s. Qed.

(** [Js.includes] decides the occurrence of a literal substring. *)
Lemma includes_spec (n s : string) :
  Js.includes n s = true ↔ ∃ a b, s = a +:+ n +:+ b.
Proof.
  induction s as [|c s IH]; rewrite includes_unfold, orb_true_iff.
  - split.
    + intros [H|H]; [|done]. apply prefix_spec in H as [b ->]. by exists "", b.
    + intros [[|x a] [b Hb]]; [|discriminate].
      left. apply prefix_spec. by exists b.
  - rewrite IH. split.
    + intros [H|[a [b ->]]].
      * apply prefix_spec in H as [b Hb]. by exists "", b.
      * by exists (String c a), b.
    + intros [[|x a] [b Hb]].
      * left. apply prefix_spec. by exists b.
      * right. rewrite append_cons in Hb. injection Hb as _ ->. by exists a, b.
Qed.

(** ** The replacement of the empty braces *)

Lemma prefix_cons (a c : ascii) (n s : string) :
  String.prefix (String a n) (String c s) =
    if ascii_dec a c then String.prefix n s else false.
Proof. reflexivity. Qed.

Lemma ascii_dec_eqb {A} (a c : ascii) (x y : A) :
  (if ascii_dec a c then x else y) = if Ascii.eqb c a then x else y.
Proof.
  destruct (ascii_dec a c) as [->|Hne].
  - by rewrite Ascii.eqb_refl.
  - destruct (Ascii.eqb c a) eqn:E; [|done].
    apply Ascii.eqb_eq in E. congruence.
Qed.

Lemma includes_braces_cons (c : ascii) (s : string) :
  Js.includes "{}" (String c s) =
    (Ascii.eqb c "{" && match s with String d _ => Ascii.eqb d "}" | _ => false end)
    || Js.includes "{}" s.
Proof.
  rewrite includes_unfold. f_equal.
  destruct s as [|d s].
  - rewrite prefix_cons, andb_false_r. by destruct (ascii_dec "{" c).
  - rewrite !prefix_cons, !ascii_dec_eqb.
    by destruct (Ascii.eqb c "{"), (Ascii.eqb d "}"), s.
Qed.

Lemma replaceEmptyBraces_unfold (c : ascii) (t : string) :
  replaceEmptyBraces (String c t) =
    match t with
    | String d t' =>
        if Ascii.eqb c "{" && Ascii.eqb d "}"
        then "{selectedText}" +:+ replaceEmptyBraces t'
        else String c (replaceEmptyBraces t)
    | EmptyString => String c EmptyString
    end.
Proof. by destruct t. Qed.

Lemma replaceEmptyBraces_head (s : string) :
  headChar (replaceEmptyBraces s) = headChar s.
Proof.
  destruct s as [|c [|d t]]; [done..|].
  rewrite replaceEmptyBraces_unfold.
  destruct (Ascii.eqb c "{") eqn:Hc; [|done].
  destruct (Ascii.eqb d "}"); [|done].
  apply Ascii.eqb_eq in Hc as ->. done.
Qed.

Lemma replaceEmptyBraces_clean_le (n : nat) : ∀ s,
  String.length s ≤ n → Js.includes "{}" (replaceEmptyBraces s) = false.
Proof.
  induction n as [|n IH]; intros s Hn.
  - destruct s; [done | simpl in Hn; lia].
  - destruct s as [|c [|d t]]; [done| |].
    + rewrite replaceEmptyBraces_unfold, includes_braces_cons.
      by rewrite andb_false_r.
    + rewrite replaceEmptyBraces_unfold.
      destruct (Ascii.eqb c "{" && Ascii.eqb d "}") eqn:Hcd.
      * assert (Js.includes "{}" (replaceEmptyBraces t) = false) as Ht
          by (apply IH; simpl in Hn; lia).
        change ("{selectedText}" +:+ replaceEmptyBraces t)
          with (String "{" (String "s" (String "e" (String "l" (String "e"
               (String "c" (String "t" (String "e" (String "d" (String "T"
               (String "e" (String "x" (String "t" (String "}"
               (replaceEmptyBraces t))))))))))))))).
        rewrite !includes_braces_cons. simpl. exact Ht.
      * rewrite includes_braces_cons.
        rewrite (IH (String d t)) by (simpl in Hn |- *; lia).
        rewrite orb_false_r.
        pose proof (replaceEmptyBraces_head (String d t)) as Hh.
        destruct (replaceEmptyBraces (String d t)) as [|e u];
          [by rewrite andb_false_r|].
        simpl in Hh. injection Hh as ->. done.
Qed.

(** After the replacement no empty pair of braces is left. *)
Lemma replaceEmptyBraces_clean (s : string) :
  Js.includes "{}" (replaceEmptyBraces s) = false.
Proof. by apply (replaceEmptyBraces_clean_le (String.length s)). Qed.

Lemma replaceEmptyBraces_id_le (n : nat) : ∀ s,
  String.length s ≤ n →
  Js.includes "{}" s = false → replaceEmptyBraces s = s.
Proof.
  induction n as [|n IH]; intros s Hn Hs.
  - destruct s; [done | simpl in Hn; lia].
  - destruct s as [|c [|d t]]; [done..|].
    rewrite includes_braces_cons in Hs.
    apply orb_false_iff in Hs as [Hcd Hs].
    rewrite replaceEmptyBraces_unfold, Hcd.
    f_equal. apply IH; [simpl in Hn |- *; lia | done].
Qed.

(** A template without an empty pair of braces is left as it is. *)
Lemma replaceEmptyBraces_id (s : string) :
  Js.includes "{}" s = false → replaceEmptyBraces s = s.
Proof. by apply (replaceEmptyBraces_id_le (String.length s)). Qed.

Lemma replaceEmptyBraces_app_le (n : nat) : ∀ a b,
  String.length a ≤ n →
  replaceEmptyBraces (a +:+ "{}" +:+ b) =
    replaceEmptyBraces a +:+ "{selectedText}" +:+ replaceEmptyBraces b.
Proof.
  induction n as [|n IH]; intros a b Hn.
  - destruct a; [|simpl in Hn; lia].
    rewrite !append_nil_l. by rewrite !append_cons, replaceEmptyBraces_unfold.
  - destruct a as [|c [|d t]].
    + rewrite !append_nil_l. by rewrite !append_cons, replaceEmptyBraces_unfold.
    + change (String c "" +:+ "{}" +:+ b) with (String c (String "{" (String "}" b))).
      rewrite replaceEmptyBraces_unfold.
      replace (Ascii.eqb c "{" && Ascii.eqb "{" "}") with false
        by (by rewrite andb_false_r).
      by rewrite replaceEmptyBraces_unfold.
    + change (String c (String d t) +:+ "{}" +:+ b)
        with (String c (String d (t +:+ "{}" +:+ b))).
      rewrite (replaceEmptyBraces_unfold c (String d (t +:+ "{}" +:+ b))).
      rewrite (replaceEmptyBraces_unfold c (String d t)).
      destruct (Ascii.eqb c "{" && Ascii.eqb d "}").
      * rewrite IH by (simpl in Hn; lia). by rewrite append_assoc.
      * change (String d (t +:+ "{}" +:+ b)) with (String d t +:+ "{}" +:+ b).
        by rewrite IH by (simpl in Hn |- *; lia).
Qed.

(** Every occurrence is replaced: the replacement distributes over an
    occurrence of the empty pair of braces. *)
Lemma replaceEmptyBraces_app (a b : string) :
  replaceEmptyBraces (a +:+ "{}" +:+ b) =
    replaceEmptyBraces a +:+ "{selectedText}" +:+ replaceEmptyBraces b.
Proof. by apply (replaceEmptyBraces_app_le (String.length a)). Qed.

Lemma join_cons_char (sep : string) (c : ascii) (hd : string) (tl : list string) :
  Js.join sep (String c hd :: tl) = String c (Js.join sep (hd :: tl)).
Proof. by destruct tl. Qed.

Lemma empty_braces_pieces_le (n : nat) : ∀ s,
  String.length s ≤ n →
  ∃ hd tl,
    Js.includes "{}" hd = false
    ∧ Forall (λ p, Js.includes "{}" p = false) tl
    ∧ s = Js.join "{}" (hd :: tl)
    ∧ (hd = "" ∨ headChar hd = headChar s).
Proof.
  induction n as [|n IH]; intros s Hn.
  - destruct s; [|simpl in Hn; lia]. exists "", []. by repeat split; [|left].
  - destruct s as [|c [|d t]].
    + exists "", []. by repeat split; [|left].
    + exists (String c ""), []. split.
      { rewrite includes_braces_cons. by rewrite andb_false_r. }
      by repeat split; [|right].
    + destruct (Ascii.eqb c "{" && Ascii.eqb d "}") eqn:Hcd.
      * apply andb_true_iff in Hcd as [Hc Hd].
        apply Ascii.eqb_eq in Hc as ->. apply Ascii.eqb_eq in Hd as ->.
        destruct (IH t) as (hd & tl & Hhd & Htl & Ht & _);
          [simpl in Hn; lia|].
        exists "", (hd :: tl). split; [done|]. split; [by constructor|].
        split; [|by left].
        change (Js.join "{}" ("" :: hd :: tl))
          with ("{}" +:+ Js.join "{}" (hd :: tl)).
        by rewrite <- Ht.
      * destruct (IH (String d t)) as (hd & tl & Hhd & Htl & Ht & Hh);
          [simpl in Hn |- *; lia|].
        exists (String c hd), tl. split.
        { rewrite includes_braces_cons, Hhd, orb_false_r.
          destruct hd as [|e u]; [by rewrite andb_false_r|].
          destruct Hh as [Hh|Hh]; [done|]. simpl in Hh. injection Hh as ->.
          exact Hcd. }
        split; [done|]. split; [|by right].
        by rewrite join_cons_char, <- Ht.
Qed.

(** Every template is made of pieces without an empty pair of braces,
    joined by such pairs. *)
Lemma empty_braces_pieces (s : string) :
  ∃ pieces,
    Forall (λ p, Js.includes "{}" p = false) pieces
    ∧ s = Js.join "{}" pieces.
Proof.
  destruct (empty_braces_pieces_le (String.length s) s) as
    (hd & tl & Hhd & Htl & Hs & _); [done|].
  exists (hd :: tl). split; [by constructor | done].
Qed.

(** The replacement keeps the pieces between the empty pairs of braces and
    puts the placeholder in the place of each pair. *)
Lemma replaceEmptyBraces_join (pieces : list string) :
  Forall (λ p, Js.includes "{}" p = false) pieces →
  replaceEmptyBraces (Js.join "{}" pieces) = Js.join "{selectedText}" pieces.
Proof.
  induction 1 as [|p pieces Hp Hall IH]; [done|].
  destruct pieces as [|q pieces].
  - by apply replaceEmptyBraces_id.
  - change (Js.join "{}" (p :: q :: pieces))
      with (p +:+ "{}" +:+ Js.join "{}" (q :: pieces)).
    change (Js.join "{selectedText}" (p :: q :: pieces))
      with (p +:+ "{selectedText}" +:+ Js.join "{selectedText}" (q :: pieces)).
    by rewrite replaceEmptyBraces_app, IH, (replaceEmptyBraces_id p).
Qed.

(** ** The variable regex, declaratively *)

Lemma includes_close_cons (d : ascii) (x : string) :
  Js.includes "}" (String d x) = Ascii.eqb d "}" || Js.includes "}" x.
Proof.
  rewrite includes_unfold, prefix_cons, ascii_dec_eqb.
  by destruct (Ascii.eqb d "}"), x.
Qed.

Lemma splitClose_Some r x rest :
  splitClose r = Some (x, rest) →
  r = x +:+ "}" +:+ rest ∧ Js.includes "}" x = false.
Proof.
  revert x. induction r as [|d r IH]; intros x; simpl; [done|].
  destruct (Ascii.eqb d "}") eqn:Hd.
  - intros [= <- <-]. apply Ascii.eqb_eq in Hd as ->. done.
  - destruct (splitClose r) as [[x' rest']|]; [|done].
    intros [= <- <-]. destruct (IH x' eq_refl) as [-> Hx].
    by rewrite includes_close_cons, Hd, Hx.
Qed.

Lemma splitClose_app x b :
  Js.includes "}" x = false → splitClose (x +:+ "}" +:+ b) = Some (x, b).
Proof.
  induction x as [|d x IH]; [done|].
  rewrite includes_close_cons. intros [Hd Hx]%orb_false_iff.
  rewrite append_cons. simpl. by rewrite Hd, IH.
Qed.

Lemma matchAll_unfold (c : ascii) (t : string) :
  matchAll (String c t) =
    if Ascii.eqb c "{" then
      match splitClose t with
      | Some (String _ _ as x, rest) => x :: matchAll rest
      | _ => matchAll t
      end
    else matchAll t.
Proof.
  simpl. destruct (Ascii.eqb c "{"); [|done].
  assert (∀ r acc,
    (fix close (acc r : string) {struct r} : list string :=
       match r with
       | EmptyString => matchAll t
       | String d r' =>
           if Ascii.eqb d "}"%char then
             match acc with
             | EmptyString => matchAll t
             | String _ _ => acc :: matchAll r'
             end
           else close (acc +:+ String d EmptyString) r'
       end) acc r =
    match splitClose r with
    | Some (x, rest) =>
        match acc +:+ x with
        | EmptyString => matchAll t
        | y => y :: matchAll rest
        end
    | None => matchAll t
    end) as Hclose.
  { induction r as [|d r IH]; intros acc; [done|]. simpl.
    destruct (Ascii.eqb d "}").
    - rewrite append_nil_r. by destruct acc.
    - rewrite IH. destruct (splitClose r) as [[x rest]|]; [|done].
      by rewrite append_assoc. }
  rewrite Hclose. by destruct (splitClose t) as [[[|a x] rest]|].
Qed.

(** [matchAll] finds nothing exactly when the template has no variable
    span. *)
Lemma matchAll_nil_iff (s : string) :
  matchAll s = [] ↔ ¬ hasVariableSpan s.
Proof.
  split.
  - intros Hnil (a & x & b & -> & Hx & Hin). revert Hnil.
    induction a as [|c a IH].
    + rewrite append_nil_l, append_cons, append_nil_l, matchAll_unfold.
      rewrite Ascii.eqb_refl, splitClose_app by done.
      by destruct x.
    + rewrite append_cons, matchAll_unfold.
      destruct (Ascii.eqb c "{"); [|done].
      by destruct (splitClose _) as [[[|e y] rest]|].
  - induction s as [|c t IH]; [done|]. intros Hno.
    assert (matchAll t = []) as Ht.
    { apply IH. intros (a & x & b & -> & Hx & Hin). apply Hno.
      by exists (String c a), x, b. }
    rewrite matchAll_unfold. destruct (Ascii.eqb c "{") eqn:Hc; [|done].
    destruct (splitClose t) as [[[|e y] rest]|] eqn:Hs; [done| |done].
    destruct Hno. apply splitClose_Some in Hs as [-> Hin].
    apply Ascii.eqb_eq in Hc as ->. by exists "", (String e y), rest.
Qed.

(** ** Claims on [processCustomPrompt] *)

Section Claims.
Context {Vault TFile : Type} `{!Utils Vault TFile}.
Implicit Types (w : World Vault) (v : Vault).

Lemma covered_spec matches noteTitle :
  covered matches noteTitle = true ↔
  ∃ m a b, m ∈ matches ∧ m = a +:+ ("[[" +:+ noteTitle +:+ "]]") +:+ b.
Proof.
  unfold covered. rewrite existsb_exists. split.
  - intros [m [Hin Hm]]. apply includes_spec in Hm as [a [b Hm]].
    exists m, a, b. by rewrite list_elem_of_In.
  - intros [m [a [b [Hin Hm]]]]. exists m. rewrite <- list_elem_of_In.
    split; [done|]. apply includes_spec. by exists a, b.
Qed.

Lemma uncoveredTitles_spec matches titles t :
  t ∈ uncoveredTitles matches titles ↔
  t ∈ titles ∧
  ¬ ∃ m a b, m ∈ matches ∧ m = a +:+ ("[[" +:+ t +:+ "]]") +:+ b.
Proof.
  unfold uncoveredTitles.
  rewrite list_elem_of_In, filter_In, <- list_elem_of_In, <- covered_spec.
  destruct (covered matches t); simpl; intuition congruence.
Qed.

(** C1.  Duplicate suppression.  Let [matches] be the raw inner texts of
    the variable spans of the template and [titles] the links found in
    the processed template.  A link is among the resolved ones exactly
    when the literal [[[title]]] occurs in none of [matches]; the blocks
    appended for links and the lookups written to the console are those
    of the resolved links, in order; and a link whose literal occurs in
    some variable's raw text leaves the loop's state and the world as
    they are. *)
Theorem note_link_duplicate_suppression
    (customPrompt selectedText : string) (activeNote : option TFile) w :
  let matches := matchAll customPrompt in
  let titles := extractNoteTitles (processedOf customPrompt) in
  let resolved := uncoveredTitles matches titles in
  let r := processCustomPrompt customPrompt selectedText activeNote w in
  (∀ t, t ∈ resolved ↔
        t ∈ titles ∧
        ¬ ∃ m a b, m ∈ matches ∧ m = a +:+ ("[[" +:+ t +:+ "]]") +:+ b)
  ∧ r.1 = processedOf customPrompt +:+ nn +:+
          (mergeVariables matches
             (activeContentOf (vault w) customPrompt selectedText activeNote) 0
             (flat_map (variableBlock (vault w) activeNote) matches)
             (selectionInfo (vault w) customPrompt selectedText activeNote)
           +:+ linkBlocks (vault w) resolved None)
  ∧ console r.2 =
      console w ++
      [VStr "*** PROCESS CUSTOM PROMPT ***"] ::
      extractHeader customPrompt ::
      flat_map (variableTrace (vault w) activeNote) matches ++
      [VStr "extract note titles from processed prompt:";
       VStr (processedOf customPrompt)] ::
      linkTrace (vault w) resolved None
  ∧ (∀ t st w',
       (∃ m a b, m ∈ matches ∧ m = a +:+ ("[[" +:+ t +:+ "]]") +:+ b) →
       noteLinkStep matches st t w' = (st, w')).
Proof.
  intros matches titles resolved r. subst r.
  rewrite processCustomPrompt_run. split; [|split; [|split]].
  - intros t. apply uncoveredTitles_spec.
  - reflexivity.
  - reflexivity.
  - intros t st w' Hc. apply noteLinkStep_covered. by apply covered_spec.
Qed.

(** C2 (amended).  For an active note [N] whose content is not empty,
    [processCustomPrompt "{activeNote}" "" N] returns the template, the
    separator and one block labelled [activeNote] whose content is the
    heading line [## <name of N>], a blank line and the full content of
    [N]. *)
Theorem active_note_block
    (N : TFile) (text : string) w :
  getFileContent N (vault w) None = Some text →
  text ≠ "" →
  extractNoteTitles "{activeNote}" = [] →
  (processCustomPrompt "{activeNote}" "" (Some N) w).1 =
    "{activeNote}" +:+ nn +:+
    nn +:+ "activeNote" +:+ ":" +:+ nn +:+
    "## " +:+ getFileName N +:+ nn +:+ text.
Proof.
  intros Hc Hne Ht.
  rewrite processCustomPrompt_run. unfold expansion; simpl.
  change (processedOf "{activeNote}") with "{activeNote}".
  change (matchAll "{activeNote}") with ["activeNote"].
  rewrite Ht. simpl.
  unfold variableBlock, keptNotes, candidateFiles; simpl.
  unfold keptNote. rewrite Hc. destruct text as [|c text]; [done|].
  simpl. by rewrite append_nil_r.
Qed.

Lemma uncoveredTitles_nil titles : uncoveredTitles [] titles = titles.
Proof.
  unfold uncoveredTitles. induction titles as [|t titles IH]; [done|].
  simpl. f_equal. exact IH.
Qed.

Lemma linkBlock_plain v noteTitle noteHeading (file : TFile) :
  Js.includes "#" noteTitle = false →
  getNoteFileFromTitle v noteTitle = Some file →
  linkBlock v noteTitle noteHeading =
    nn +:+ "[[" +:+ noteTitle +:+ "]]:" +:+ nn +:+
    Js.showNull (getFileContent file v noteHeading).
Proof. unfold linkBlock, parseTitle. by intros -> ->. Qed.

(** C3.  The heading of an earlier link is carried over.  On a template
    whose links are [t1] and then [t2], where [t2] has no [#heading] and
    resolves to a file, the block of [t2] holds what [getFileContent]
    returns for the heading left by [t1], not for the absent heading: with
    [t1 = A#Intro] that is the section [Intro] of the file of [t2], not its
    full content. *)
Theorem heading_carried_over_to_next_link
    (customPrompt selectedText t1 t2 : string) (activeNote : option TFile)
    (file : TFile) w :
  matchAll customPrompt = [] →
  Js.includes "{}" customPrompt = false →
  extractNoteTitles customPrompt = [t1; t2] →
  Js.includes "#" t2 = false →
  getNoteFileFromTitle (vault w) t2 = Some file →
  (processCustomPrompt customPrompt selectedText activeNote w).1 =
    customPrompt +:+ nn +:+
    linkBlock (vault w) t1 None +:+
    nn +:+ "[[" +:+ t2 +:+ "]]:" +:+ nn +:+
      Js.showNull (getFileContent file (vault w) (parseTitle t1 None).2).
Proof.
  intros Hm Hb Ht Hno Hfile.
  rewrite processCustomPrompt_run. unfold expansion, processedOf, selectionInfo.
  rewrite Hb, Hm, Ht, uncoveredTitles_nil.
  change (linkBlocks (vault w) [t1; t2] None)
    with (linkBlock (vault w) t1 None +:+
          linkBlock (vault w) t2 (parseTitle t1 None).2 +:+ "").
  rewrite (linkBlock_plain _ t2 _ file) by done.
  by rewrite append_nil_r.
Qed.

Lemma mergeVariables_acc matches activeNoteContent blocks : ∀ i info,
  mergeVariables matches activeNoteContent i blocks info =
    info +:+ mergeVariables matches activeNoteContent i blocks "".
Proof.
  induction blocks as [|block blocks IH]; intros i info; simpl.
  - by rewrite append_nil_r.
  - rewrite IH. symmetry. rewrite IH, <- append_assoc. f_equal.
    destruct (matches !! i) as [varname|]; [|by rewrite append_nil_r].
    by destruct (_ && _); rewrite ?append_nil_r.
Qed.

Lemma parseTitle_fst noteTitle h h' :
  (parseTitle noteTitle h).1 = (parseTitle noteTitle h').1.
Proof.
  unfold parseTitle. destruct (Js.includes "#" noteTitle); [|done].
  by destruct (Js.split "#" noteTitle).
Qed.

Lemma linkBlock_unresolved v noteTitle h :
  getNoteFileFromTitle v (parseTitle noteTitle None).1 = None →
  linkBlock v noteTitle h = "".
Proof.
  unfold linkBlock. rewrite (parseTitle_fst noteTitle None h).
  destruct (parseTitle noteTitle h) as [parsed heading]. simpl.
  by intros ->.
Qed.

Lemma linkBlocks_unresolved v titles : ∀ h,
  (∀ t, t ∈ titles → getNoteFileFromTitle v (parseTitle t None).1 = None) →
  linkBlocks v titles h = "".
Proof.
  induction titles as [|t titles IH]; intros h Hall; [done|]. simpl.
  rewrite linkBlock_unresolved by (apply Hall; left).
  rewrite IH; [done|]. intros t' Ht'. apply Hall. by right.
Qed.

(** C4.  Empty-braces placeholder.  When the template contains the empty
    pair of braces and the selected text is not empty, the returned body
    is the template with every such pair replaced by [{selectedText}] and
    the text outside the pairs kept: the template is made of pieces without
    an empty pair, joined by such pairs, and the body is the same pieces
    joined by [{selectedText}], whichever way the template is cut into such
    pieces (so the replacement distributes over each occurrence and leaves
    none).  The additional info starts with the one block
    [selectedText:\n\n <selectedText>], followed by the blocks of the
    variables and of the links.  On the template made of the pair alone
    the result is exactly that body and that block. *)
Theorem empty_braces_placeholder
    (customPrompt selectedText : string) (activeNote : option TFile) w :
  Js.includes "{}" customPrompt = true →
  selectedText ≠ "" →
  let matches := matchAll customPrompt in
  let body := replaceEmptyBraces customPrompt in
  (processCustomPrompt customPrompt selectedText activeNote w).1 =
    body +:+ nn +:+
    ("selectedText:" +:+ nn +:+ " " +:+ selectedText) +:+
    mergeVariables matches None 0
      (flat_map (variableBlock (vault w) activeNote) matches) "" +:+
    linkBlocks (vault w)
      (uncoveredTitles matches (extractNoteTitles body)) None
  ∧ Js.includes "{}" body = false
  ∧ (∀ a b, replaceEmptyBraces (a +:+ "{}" +:+ b) =
            replaceEmptyBraces a +:+ "{selectedText}" +:+ replaceEmptyBraces b)
  ∧ (∃ pieces,
       Forall (λ p, Js.includes "{}" p = false) pieces
       ∧ customPrompt = Js.join "{}" pieces
       ∧ body = Js.join "{selectedText}" pieces)
  ∧ (∀ pieces,
       Forall (λ p, Js.includes "{}" p = false) pieces →
       customPrompt = Js.join "{}" pieces →
       body = Js.join "{selectedText}" pieces)
  ∧ (customPrompt = "{}" →
     extractNoteTitles "{selectedText}" = [] →
     (processCustomPrompt customPrompt selectedText activeNote w).1 =
       "{selectedText}" +:+ nn +:+ "selectedText:" +:+ nn +:+ " " +:+ selectedText).
Proof.
  intros Hb Hsel matches body.
  assert (Js.nonEmpty selectedText = true) as Hne
    by (by destruct selectedText).
  assert ((processCustomPrompt customPrompt selectedText activeNote w).1 =
    body +:+ nn +:+
    ("selectedText:" +:+ nn +:+ " " +:+ selectedText) +:+
    mergeVariables matches None 0
      (flat_map (variableBlock (vault w) activeNote) matches) "" +:+
    linkBlocks (vault w)
      (uncoveredTitles matches (extractNoteTitles body)) None) as Hout.
  { rewrite processCustomPrompt_run. simpl.
    unfold expansion, processedOf, selectionInfo, activeContentOf.
    rewrite Hb, Hne. simpl.
    rewrite mergeVariables_acc. by rewrite !append_assoc. }
  split; [exact Hout|]. split; [apply replaceEmptyBraces_clean|].
  split; [apply replaceEmptyBraces_app|].
  split.
  { destruct (empty_braces_pieces customPrompt) as (pieces & Hall & Hj).
    exists pieces. split; [done|]. split; [done|].
    subst body. rewrite Hj at 1. by apply replaceEmptyBraces_join. }
  split.
  { intros pieces Hall Hj. subst body. rewrite Hj.
    by apply replaceEmptyBraces_join. }
  intros -> Ht. rewrite Hout. subst matches body.
  change (replaceEmptyBraces "{}") with "{selectedText}".
  change (matchAll "{}") with (@nil string).
  rewrite Ht. simpl. by rewrite !append_assoc, !append_nil_r.
Qed.

(** C5.  The label of a block is taken at the block's index among the
    blocks, not at the index of its span: on a template with the two
    variable spans [p] and [q], where [p] resolves to no note and [q] to
    at least one, the block of [q] is appended under the label [p]. *)
Theorem block_labelled_with_earlier_span
    (customPrompt selectedText p q : string) (activeNote : option TFile) w :
  matchAll customPrompt = [p; q] →
  Js.includes "{}" customPrompt = false →
  extractNoteTitles customPrompt = [] →
  keptNotes (vault w) activeNote (Js.trim p) = [] →
  keptNotes (vault w) activeNote (Js.trim q) ≠ [] →
  (processCustomPrompt customPrompt selectedText activeNote w).1 =
    customPrompt +:+ nn +:+
    nn +:+ p +:+ ":" +:+ nn +:+
    markdownContent (keptNotes (vault w) activeNote (Js.trim q)).
Proof.
  intros Hm Hb Ht Hp Hq.
  rewrite processCustomPrompt_run. simpl.
  unfold expansion, processedOf, selectionInfo, activeContentOf.
  rewrite Hb, Hm, Ht. simpl.
  unfold variableBlock. rewrite Hp.
  destruct (keptNotes (vault w) activeNote (Js.trim q)) as [|n ns]; [done|].
  simpl. rewrite andb_false_r. by rewrite append_nil_r.
Qed.


(** C8.  Determinism.  A second call in the world left by the first
    returns the same string; the first call leaves the vault as it was;
    and any call in a world with the same vault returns that string. *)
Theorem expansion_deterministic
    (customPrompt selectedText : string) (activeNote : option TFile) w :
  let r1 := processCustomPrompt customPrompt selectedText activeNote w in
  let r2 := processCustomPrompt customPrompt selectedText activeNote r1.2 in
  r1.1 = r2.1
  ∧ vault r1.2 = vault w
  ∧ (∀ w', vault w' = vault w →
       (processCustomPrompt customPrompt selectedText activeNote w').1 = r1.1).
Proof.
  intros r1 r2. subst r1 r2.
  rewrite !processCustomPrompt_run. simpl.
  split; [done|]. split; [done|].
  intros w' Hv. rewrite processCustomPrompt_run. simpl. by rewrite Hv.
Qed.

(** C9.  Plain template.  A template with no variable span, no empty
    braces and no link is returned followed by the separator, whatever
    the selected text and the active note. *)
Theorem plain_template_baseline
    (customPrompt selectedText : string) (activeNote : option TFile) w :
  ¬ hasVariableSpan customPrompt →
  Js.includes "{}" customPrompt = false →
  extractNoteTitles customPrompt = [] →
  (processCustomPrompt customPrompt selectedText activeNote w).1 =
    customPrompt +:+ nn.
Proof.
  intros Hm%matchAll_nil_iff Hb Ht. rewrite processCustomPrompt_run. simpl.
  unfold expansion, processedOf, selectionInfo. rewrite Hb, Hm, Ht.
  simpl. by rewrite append_nil_r.
Qed.

Lemma keptNote_spec v (file : TFile) (note : Note) :
  note ∈ keptNote v file ↔
  getFileContent file v None = Some (content note) ∧
  content note ≠ "" ∧ name note = getFileName file.
Proof.
  unfold keptNote.
  destruct (getFileContent file v None) as [[|c text]|].
  - split; [by intros ?%elem_of_nil | intros [[= E] [Hne _]]].
    by rewrite <- E in Hne.
  - rewrite list_elem_of_singleton. destruct note as [n t]; simpl.
    split; [by intros [= -> ->] | by intros [[= ->] [_ ->]]].
  - split; [by intros ?%elem_of_nil | by intros [? _]].
Qed.

Lemma keptNotes_spec v activeNote variableName (note : Note) :
  note ∈ keptNotes v activeNote variableName ↔
  ∃ file, file ∈ candidateFiles v activeNote variableName ∧
          getFileContent file v None = Some (content note) ∧
          content note ≠ "" ∧ name note = getFileName file.
Proof.
  unfold keptNotes. rewrite list_elem_of_In, in_flat_map.
  split; intros [file [Hin Hk]]; exists file.
  - by rewrite list_elem_of_In, <- keptNote_spec, list_elem_of_In.
  - by rewrite <- !list_elem_of_In, keptNote_spec.
Qed.

Lemma noActiveNotice_kept v activeNote variableName :
  keptNotes v activeNote variableName ≠ [] →
  noActiveNotice activeNote variableName = [].
Proof.
  unfold keptNotes, candidateFiles, noActiveNotice.
  destruct (isActiveNote variableName); [|done].
  by destruct activeNote.
Qed.

Lemma warning_not_no_active variableName :
  warningFor variableName ≠ "No active note found.".
Proof. unfold warningFor. rewrite append_cons. discriminate. Qed.

(** C10.  Empty notes and the warning.  [extractVariablesFromPrompt]
    returns the blocks and raises the notices of its captures in order.
    For each capture the notes kept are the matched files whose content
    is neither null nor empty, a file with empty content contributing
    nothing; the warning of the variable is raised exactly when no note
    is kept, and then there is no block; when a note is kept the block
    is the merge of the kept notes and no notice is raised. *)
Theorem empty_notes_dropped_warning_iff_none_kept
    (customPrompt : string) (activeNote : option TFile) w :
  let v := vault w in
  let r := extractVariablesFromPrompt customPrompt activeNote w in
  r.1 = flat_map (variableBlock v activeNote) (matchAll customPrompt)
  ∧ notices r.2 =
      notices w ++
      flat_map (variableNotices v activeNote) (matchAll customPrompt)
  ∧ ∀ capture,
      let variableName := Js.trim capture in
      let kept := keptNotes v activeNote variableName in
      (∀ note, note ∈ kept ↔
         ∃ file, file ∈ candidateFiles v activeNote variableName ∧
                 getFileContent file v None = Some (content note) ∧
                 content note ≠ "" ∧ name note = getFileName file)
      ∧ (∀ file, getFileContent file v None = Some "" →
                 keptNote v file = [])
      ∧ (warningFor variableName ∈ variableNotices v activeNote capture ↔
         kept = [])
      ∧ (kept = [] → variableBlock v activeNote capture = [])
      ∧ (kept ≠ [] →
         variableBlock v activeNote capture = [markdownContent kept] ∧
         variableNotices v activeNote capture = []).
Proof.
  intros v r. subst v r. rewrite extractVariablesFromPrompt_run. simpl.
  split; [done|]. split; [done|].
  intros capture.
  set (variableName := Js.trim capture).
  set (kept := keptNotes (vault w) activeNote variableName).
  split; [intros note; apply keptNotes_spec|].
  split; [intros file Hf; unfold keptNote; by rewrite Hf|].
  unfold variableNotices, variableBlock. fold variableName. fold kept.
  split; [|split].
  - split.
    + intros Hin. destruct kept as [|n ns] eqn:Hk; [done|].
      rewrite app_nil_r in Hin. unfold noActiveNotice in Hin.
      destruct (_ && _).
      * apply list_elem_of_singleton in Hin.
        by apply warning_not_no_active in Hin.
      * by apply elem_of_nil in Hin.
    + intros ->. rewrite elem_of_app. right. by left.
  - by intros ->.
  - intros Hk. rewrite (noActiveNotice_kept (vault w)) by done.
    by destruct kept.
Qed.

End Claims.

(** ** Claims on [updatePrompt] *)

Section StoreClaims.
Import PromptStore.
Context {Usage : Type} (updateUsage : string → string → Usage → Usage).
Context (customPromptsFolder : string).

Local Abbreviation updatePrompt :=
  (PromptStore.updatePrompt updateUsage customPromptsFolder).
Local Abbreviation promptPath := (PromptStore.promptPath customPromptsFolder).

(** C7 (amended).  Rename conflict.  For titles [A ≠ B] with a document at
    the path of [B], [updatePrompt A B content] writes nothing: files and
    usage records are as before.  It throws the duplicate-title error
    when a template file exists at the path of [A], and returns without
    an error when none does. *)
Theorem rename_conflict_writes_nothing
    (originTitle newTitle content : string) (s : Store Usage) :
  originTitle ≠ newTitle →
  is_Some (files s !! promptPath newTitle) →
  ((∃ old, files s !! promptPath originTitle = Some (File old)) →
   updatePrompt originTitle newTitle content s = Threw duplicateTitleMessage s)
  ∧ ((∀ old, files s !! promptPath originTitle ≠ Some (File old)) →
     updatePrompt originTitle newTitle content s = Returned s).
Proof.
  intros Hne [e He]. unfold PromptStore.updatePrompt. split.
  - intros [old ->]. rewrite bool_decide_eq_true_2 by done. by rewrite He.
  - intros Hno. destruct (files s !! promptPath originTitle) as [[old|]|];
      [by destruct (Hno old) | done | done].
Qed.

End StoreClaims.

(** ** The claims on the example vault *)

Lemma note_link_duplicate_suppression_witness :
  matchAll "{[[A]]} [[A]] [[B]]" = ["[[A]]"]
  ∧ extractNoteTitles "{[[A]]} [[A]] [[B]]" = ["A"; "A"; "B"]
  ∧ uncoveredTitles ["[[A]]"] ["A"; "A"; "B"] = ["B"]
  ∧ (processCustomPrompt "{[[A]]} [[A]] [[B]]" "" None Demo.demoWorld).1 =
      "{[[A]]} [[A]] [[B]]" +:+ nn +:+ nn +:+ "[[B]]:" +:+ nn +:+ "all of B"
  ∧ noteLinkStep (matchAll "{[[A]]} [[A]] [[B]]") ("", None) "A" Demo.demoWorld =
      (("", None), Demo.demoWorld).
Proof.
  destruct (note_link_duplicate_suppression
              "{[[A]]} [[A]] [[B]]" "" None Demo.demoWorld)
    as (_ & Hout & _ & Hskip).
  split; [reflexivity|]. split; [reflexivity|]. split; [reflexivity|].
  split; [rewrite Hout; reflexivity|].
  apply Hskip. exists "[[A]]", "", "".
  split; [apply list_elem_of_singleton | ]; reflexivity.
Defined.

(** C2, as stated, fails: the block of the active note ["B"] does not hold
    the content of the note alone. *)
Lemma active_note_block_counterexample :
  getFileContent "B" (vault Demo.demoWorld) None = Some "all of B"
  ∧ (processCustomPrompt "{activeNote}" "" (Some "B") Demo.demoWorld).1 ≠
      "{activeNote}" +:+ nn +:+ nn +:+ "activeNote:" +:+ nn +:+ "all of B".
Proof.
  split; [reflexivity|]. apply String.eqb_neq. by vm_compute.
Qed.

Lemma active_note_block_witness :
  getFileContent "B" (vault Demo.demoWorld) None = Some "all of B"
  ∧ "all of B" ≠ ""
  ∧ extractNoteTitles "{activeNote}" = []
  ∧ (processCustomPrompt "{activeNote}" "" (Some "B") Demo.demoWorld).1 =
      "{activeNote}" +:+ nn +:+
      nn +:+ "activeNote:" +:+ nn +:+ "## B" +:+ nn +:+ "all of B".
Proof.
  split; [reflexivity|]. split; [discriminate|]. split; [reflexivity|].
  rewrite (active_note_block "B" "all of B" Demo.demoWorld);
    [reflexivity | reflexivity | discriminate | reflexivity].
Defined.

Lemma heading_carried_over_to_next_link_witness :
  getFileContent "B" Demo.demoVault None = Some "all of B"
  ∧ getFileContent "B" Demo.demoVault (Some "Intro") = None
  ∧ (processCustomPrompt "[[A#Intro]] [[B]]" "" None Demo.demoWorld).1 =
      "[[A#Intro]] [[B]]" +:+ nn +:+
      nn +:+ "[[A#Intro]]:" +:+ nn +:+ "intro of A." +:+
      nn +:+ "[[B]]:" +:+ nn +:+ "null".
Proof.
  split; [reflexivity|]. split; [reflexivity|].
  rewrite (heading_carried_over_to_next_link
             "[[A#Intro]] [[B]]" "" "A#Intro" "B" None "B" Demo.demoWorld);
    reflexivity.
Defined.

Lemma empty_braces_placeholder_witness :
  Js.includes "{}" "{}" = true
  ∧ "hello world" ≠ ""
  ∧ (processCustomPrompt "{}" "hello world" None Demo.demoWorld).1 =
      "{selectedText}" +:+ nn +:+ "selectedText:" +:+ nn +:+ " hello world"
  ∧ replaceEmptyBraces "Summarise {} briefly" =
      "Summarise {selectedText} briefly".
Proof.
  split; [reflexivity|]. split; [discriminate|]. split.
  - destruct (empty_braces_placeholder "{}" "hello world" None Demo.demoWorld)
      as (_ & _ & _ & _ & _ & Hex); [reflexivity | discriminate |].
    rewrite Hex; reflexivity.
  - destruct (empty_braces_placeholder "Summarise {} briefly" "hello world"
                None Demo.demoWorld)
      as (_ & _ & _ & _ & Hall & _); [reflexivity | discriminate |].
    apply (Hall ["Summarise "; " briefly"]); [|reflexivity].
    repeat constructor.
Defined.

Lemma block_labelled_with_earlier_span_witness :
  matchAll "{missing} {notes/B}" = ["missing"; "notes/B"]
  ∧ keptNotes Demo.demoVault None "missing" = []
  ∧ keptNotes Demo.demoVault None "notes/B" = [mkNote "B" "all of B"]
  ∧ (processCustomPrompt "{missing} {notes/B}" "" None Demo.demoWorld).1 =
      "{missing} {notes/B}" +:+ nn +:+
      nn +:+ "missing:" +:+ nn +:+ "## B" +:+ nn +:+ "all of B".
Proof.
  split; [reflexivity|]. split; [reflexivity|]. split; [reflexivity|].
  rewrite (block_labelled_with_earlier_span
             "{missing} {notes/B}" "" "missing" "notes/B" None Demo.demoWorld);
    [reflexivity | reflexivity | reflexivity | reflexivity | reflexivity
    | discriminate].
Defined.


Lemma expansion_deterministic_witness :
  vault (mkWorld Demo.demoVault [] []) = vault Demo.demoWorld
  ∧ (processCustomPrompt "{drafts} [[A#Intro]]" "" None
       (mkWorld Demo.demoVault [] [])).1 =
    (processCustomPrompt "{drafts} [[A#Intro]]" "" None Demo.demoWorld).1.
Proof.
  split; [reflexivity|].
  destruct (expansion_deterministic "{drafts} [[A#Intro]]" "" None Demo.demoWorld)
    as (_ & _ & Hsame).
  apply Hsame. reflexivity.
Defined.

Lemma plain_template_baseline_witness :
  ¬ hasVariableSpan "Summarise this."
  ∧ Js.includes "{}" "Summarise this." = false
  ∧ extractNoteTitles "Summarise this." = []
  ∧ (processCustomPrompt "Summarise this." "some text" (Some "A")
       Demo.demoWorld).1 = "Summarise this." +:+ nn.
Proof.
  assert (¬ hasVariableSpan "Summarise this.") as Hno
    by (apply matchAll_nil_iff; reflexivity).
  split; [exact Hno|]. split; [reflexivity|]. split; [reflexivity|].
  rewrite (plain_template_baseline "Summarise this." "some text" (Some "A")
             Demo.demoWorld); [reflexivity | exact Hno | reflexivity..].
Defined.

Lemma empty_notes_dropped_warning_iff_none_kept_witness :
  candidateFiles Demo.demoVault None "drafts" = ["E"; "D"]
  ∧ keptNotes Demo.demoVault None "drafts" = [mkNote "D" "draft text"]
  ∧ candidateFiles Demo.demoVault None "blank" = ["Z"]
  ∧ keptNotes Demo.demoVault None "blank" = []
  ∧ variableBlock Demo.demoVault None "drafts" = ["## D" +:+ nn +:+ "draft text"]
  ∧ variableNotices Demo.demoVault None "drafts" = []
  ∧ variableBlock Demo.demoVault None "blank" = []
  ∧ warningFor "blank" ∈ variableNotices Demo.demoVault None "blank".
Proof.
  destruct (empty_notes_dropped_warning_iff_none_kept
              "{drafts} {blank}" None Demo.demoWorld) as (_ & _ & Hcap).
  destruct (Hcap "drafts") as (_ & _ & _ & _ & Hkept).
  destruct (Hcap "blank") as (_ & _ & Hwarn & Hnone & _).
  destruct Hkept as [Hblock Hquiet]; [discriminate|].
  split; [reflexivity|]. split; [reflexivity|].
  split; [reflexivity|]. split; [reflexivity|].
  split; [exact Hblock|]. split; [exact Hquiet|].
  split; [apply Hnone; reflexivity | apply Hwarn; reflexivity].
Defined.

(** C7, as stated, fails: with a document at ["B"] and none at ["A"], the
    call returns without throwing. *)
Lemma rename_conflict_counterexample :
  "A" ≠ "B"
  ∧ is_Some (PromptStore.files Demo.demoStore
               !! PromptStore.promptPath "prompts" "B")
  ∧ PromptStore.updatePrompt Demo.updateUsage "prompts" "A" "B" "new text"
      Demo.demoStore = PromptStore.Returned Demo.demoStore
  ∧ ¬ ∃ message s,
        PromptStore.updatePrompt Demo.updateUsage "prompts" "A" "B" "new text"
          Demo.demoStore = PromptStore.Threw message s.
Proof.
  assert (PromptStore.updatePrompt Demo.updateUsage "prompts" "A" "B" "new text"
            Demo.demoStore = PromptStore.Returned Demo.demoStore) as Hret
    by reflexivity.
  split; [discriminate|]. split; [by eexists|]. split; [exact Hret|].
  intros (message & s & Hthrew). rewrite Hret in Hthrew. discriminate.
Qed.

Lemma rename_conflict_writes_nothing_witness :
  "A" ≠ "B"
  ∧ is_Some (PromptStore.files Demo.demoStoreAB
               !! PromptStore.promptPath "prompts" "B")
  ∧ PromptStore.updatePrompt Demo.updateUsage "prompts" "A" "B" "new text"
      Demo.demoStoreAB =
    PromptStore.Threw PromptStore.duplicateTitleMessage Demo.demoStoreAB.
Proof.
  split; [discriminate|]. split; [by eexists|].
  destruct (rename_conflict_writes_nothing Demo.updateUsage "prompts"
              "A" "B" "new text" Demo.demoStoreAB) as [Hthrows _];
    [discriminate | by eexists |].
  apply Hthrows. by eexists.
Defined.

(** * Further properties of the prompt store *)

Lemma length_append (a b : string) :
  String.length (a +:+ b) = String.length a + String.length b.
Proof. induction a as [|c a IH]; [done|]. rewrite append_cons. simpl. lia. Qed.

Lemma append_cancel_r (a b s : string) : a +:+ s = b +:+ s → a = b.
Proof.
  revert b. induction a as [|c a IH]; intros [|d b] H; [done| | |].
  - apply (f_equal String.length) in H.
    rewrite append_nil_l, append_cons in H. simpl in H.
    rewrite length_append in H. lia.
  - apply (f_equal String.length) in H.
    rewrite append_nil_l, append_cons in H. simpl in H.
    rewrite length_append in H. lia.
  - rewrite !append_cons in H. injection H as -> H. f_equal. by apply IH.
Qed.

Lemma append_ne_self (s x : string) : x ≠ "" → s +:+ x ≠ s.
Proof.
  intros Hx H. apply (f_equal String.length) in H.
  rewrite length_append in H. destruct x; [done|]. simpl in H. lia.
Qed.

Section StoreExtras.
Import PromptStore.
Context {Usage : Type}.
Context (updateUsage : string → string → Usage → Usage).
Context (removeUnusedPrompts : list string → Usage → Usage).
Context (normalizePath : string → string) (fileExistsMessage : string).
Context (customPromptsFolder : string).

Local Abbreviation updatePrompt :=
  (PromptStore.updatePrompt updateUsage customPromptsFolder).
Local Abbreviation promptPath := (PromptStore.promptPath customPromptsFolder).
Local Abbreviation getPrompt := (PromptStore.getPrompt customPromptsFolder).
Local Abbreviation savePrompt :=
  (PromptStore.savePrompt normalizePath fileExistsMessage customPromptsFolder).
Local Abbreviation deletePrompt :=
  (PromptStore.deletePrompt removeUnusedPrompts customPromptsFolder).

Lemma promptPath_inj (t t' : string) : promptPath t = promptPath t' → t = t'.
Proof.
  unfold PromptStore.promptPath. intros H.
  do 2 apply String.app_inj in H. by apply append_cancel_r in H.
Qed.

Lemma getPrompt_lookup (t : string) (s s' : Store Usage) :
  files s' !! promptPath t = files s !! promptPath t →
  getPrompt t s' = getPrompt t s.
Proof. unfold PromptStore.getPrompt. by intros ->. Qed.

(** X1.  Update, then read.  When a template file exists at the old title
    and [updatePrompt] returns, [getPrompt] of the new title yields the new
    title with the new content. *)
Theorem updatePrompt_then_getPrompt
    (originTitle newTitle content : string) (s s' : Store Usage) :
  is_Some (getPrompt originTitle s) →
  updatePrompt originTitle newTitle content s = Returned s' →
  getPrompt newTitle s' = Some (mkPrompt newTitle content).
Proof.
  unfold PromptStore.getPrompt, PromptStore.updatePrompt.
  destruct (files s !! promptPath originTitle) as [[old|]|] eqn:Ho;
    [|by intros [? ?]..].
  intros _. case_bool_decide as Hne.
  - destruct (files s !! promptPath newTitle) eqn:Hn; [done|].
    intros [= <-]. simpl. unfold modify, rename. rewrite Ho.
    by rewrite !lookup_insert_eq.
  - subst newTitle. intros [= <-]. simpl.
    unfold modify. rewrite Ho. by rewrite lookup_insert_eq.
Qed.

(** X2.  A rename moves the template.  For [A ≠ B], a template file at [A]
    and nothing at [B], [updatePrompt A B content] returns; afterwards there
    is no prompt at [A], and the usage records are those of
    [updateUsage A B]. *)
Theorem updatePrompt_rename_moves
    (originTitle newTitle content : string) (s : Store Usage) :
  originTitle ≠ newTitle →
  is_Some (getPrompt originTitle s) →
  files s !! promptPath newTitle = None →
  ∃ s', updatePrompt originTitle newTitle content s = Returned s'
        ∧ getPrompt originTitle s' = None
        ∧ getPrompt newTitle s' = Some (mkPrompt newTitle content)
        ∧ usage s' = updateUsage originTitle newTitle <$> usage s.
Proof.
  intros Hne Hold Hnew.
  assert (promptPath originTitle ≠ promptPath newTitle) as Hp
    by (intros H; by apply promptPath_inj in H).
  unfold PromptStore.getPrompt in Hold.
  unfold PromptStore.updatePrompt, PromptStore.getPrompt.
  destruct (files s !! promptPath originTitle) as [[old|]|] eqn:Ho;
    [|by destruct Hold..].
  rewrite bool_decide_eq_true_2 by done. rewrite Hnew.
  eexists. split; [reflexivity|]. simpl. unfold modify, rename. rewrite Ho.
  rewrite !lookup_insert_eq.
  rewrite lookup_insert_ne by done. rewrite lookup_insert_ne by done.
  by rewrite lookup_delete_eq.
Qed.

(** X3.  [updatePrompt] touches no other path.  Whatever the outcome, the
    entry at every path other than those of the old and the new title is as
    before. *)
Theorem updatePrompt_frame
    (originTitle newTitle content path : string) (s : Store Usage) :
  path ≠ promptPath originTitle →
  path ≠ promptPath newTitle →
  files (storeOf (updatePrompt originTitle newTitle content s)) !! path =
    files s !! path.
Proof.
  intros Ho Hn. unfold PromptStore.updatePrompt.
  destruct (files s !! promptPath originTitle) as [[old|]|] eqn:Hold;
    [|done..].
  case_bool_decide.
  - destruct (files s !! promptPath newTitle) eqn:Hnew; [done|]. simpl.
    unfold modify, rename. rewrite Hold. rewrite lookup_insert_eq.
    rewrite !lookup_insert_ne by done. by rewrite lookup_delete_ne.
  - simpl. unfold modify. rewrite Hold. by rewrite lookup_insert_ne.
Qed.

Lemma filePath_ne_folder (folderPath t : string) :
  folderPath +:+ "/" +:+ t +:+ ".md" ≠ folderPath.
Proof. by apply append_ne_self. Qed.

(** X4.  Save, then read.  When the configured folder is its own normal
    form and nothing is at the path of the title, [savePrompt] returns;
    afterwards [getPrompt] of the title yields the saved content, and the
    other titles read as before. *)
Theorem savePrompt_then_getPrompt
    (title content : string) (s : Store Usage) :
  normalizePath customPromptsFolder = customPromptsFolder →
  files s !! promptPath title = None →
  ∃ s', savePrompt title content s = Returned s'
        ∧ getPrompt title s' = Some (mkPrompt title content)
        ∧ (∀ t, t ≠ title → getPrompt t s' = getPrompt t s)
        ∧ usage s' = usage s.
Proof.
  intros Hnorm Hfree. unfold PromptStore.savePrompt. rewrite Hnorm.
  fold (promptPath title).
  set (fs := if negb _ then _ else _).
  assert (∀ p, p ≠ customPromptsFolder → fs !! p = files s !! p) as Hfs.
  { intros p Hp. subst fs. destruct (negb _); [|done].
    unfold createFolder. by rewrite lookup_insert_ne. }
  rewrite Hfs, Hfree by apply filePath_ne_folder.
  eexists. split; [reflexivity|]. split; [|split; [|done]].
  - unfold PromptStore.getPrompt. simpl. by rewrite lookup_insert_eq.
  - intros t Ht. apply getPrompt_lookup. simpl.
    rewrite lookup_insert_ne by (intros H; by apply promptPath_inj in H).
    apply Hfs, filePath_ne_folder.
Qed.

(** X5.  [savePrompt] never overwrites.  Whatever the outcome, every entry
    of the vault is kept as it was; and when something is already at the
    path of the new file, the call throws. *)
Theorem savePrompt_keeps_entries
    (title content : string) (s : Store Usage) :
  (∀ path e, files s !! path = Some e →
     files (storeOf (savePrompt title content s)) !! path = Some e)
  ∧ (is_Some (files s !! (normalizePath customPromptsFolder +:+ "/" +:+
                          title +:+ ".md")) →
     ∃ s', savePrompt title content s = Threw fileExistsMessage s').
Proof.
  unfold PromptStore.savePrompt.
  set (folderPath := normalizePath customPromptsFolder).
  set (filePath := folderPath +:+ "/" +:+ title +:+ ".md").
  set (fs := if negb _ then _ else _).
  assert (∀ p e, files s !! p = Some e → fs !! p = Some e) as Hkeep.
  { intros p e Hp. subst fs. unfold pathExists.
    case_bool_decide as Hex; simpl; [done|].
    unfold createFolder. rewrite lookup_insert_ne; [done|].
    intros <-. apply Hex. by eexists. }
  split.
  - intros p e Hp. destruct (fs !! filePath) eqn:Hf; simpl; [by apply Hkeep|].
    rewrite lookup_insert_ne; [by apply Hkeep|].
    intros <-. apply Hkeep in Hp. congruence.
  - intros [e He]. rewrite (Hkeep _ _ He). by eexists.
Qed.


End StoreExtras.

(** * The process-wide instance *)

Section SingletonExtras.
Import Singleton.
Context {V S U : Type}.

Lemma getInstances_set (calls : list (V * S * option U)) i ws :
  getInstances calls (mkStatic (Some i) ws) =
    (replicate (length calls) i, mkStatic (Some i) ws).
Proof.
  induction calls as [|[[v s] u] calls IH]; [done|]. simpl. by rewrite IH.
Qed.

(** X7.  The first construction wins.  In any sequence of calls of
    [getInstance] starting without an instance, every call returns the
    instance built from the arguments of the first call, whatever vault,
    settings or usage strategy the later calls pass; the warning is written
    at most once, when the first call passes no usage strategy. *)
Theorem getInstance_first_wins
    (v : V) (s : S) (u : option U) (calls : list (V * S * option U))
    (ws : list string) :
  getInstances ((v, s, u) :: calls) (mkStatic None ws) =
    (replicate (Datatypes.S (length calls)) (mkInstance v s u),
     mkStatic (Some (mkInstance v s u))
       (ws ++ match u with
              | Some _ => []
              | None => ["PromptUsageStrategy not initialize"]
              end)).
Proof.
  simpl. rewrite getInstances_set. by destruct u; rewrite ?app_nil_r.
Qed.

End SingletonExtras.

(** * Further properties of the expansion *)

Lemma includes_app_r (n a s : string) :
  Js.includes n s = true → Js.includes n (a +:+ s) = true.
Proof.
  rewrite !includes_spec. intros (x & y & ->).
  exists (a +:+ x), y. by rewrite append_assoc.
Qed.

Lemma matchAll_captures_le (n : nat) : ∀ s m,
  String.length s ≤ n →
  m ∈ matchAll s →
  m ≠ "" ∧ Js.includes "}" m = false
  ∧ ∃ a b, s = a +:+ "{" +:+ m +:+ "}" +:+ b.
Proof.
  induction n as [|n IH]; intros s m Hn Hm.
  - destruct s; [by apply elem_of_nil in Hm | simpl in Hn; lia].
  - destruct s as [|c t]; [by apply elem_of_nil in Hm|].
    simpl in Hn. rewrite matchAll_unfold in Hm.
    assert (m ∈ matchAll t →
            m ≠ "" ∧ Js.includes "}" m = false
            ∧ ∃ a b, String c t = a +:+ "{" +:+ m +:+ "}" +:+ b) as Htail.
    { intros Ht. destruct (IH t m) as (? & ? & a & b & ->); [lia|done|].
      split; [done|]. split; [done|]. by exists (String c a), b. }
    destruct (Ascii.eqb c "{") eqn:Hc; [|by apply Htail].
    destruct (splitClose t) as [[[|e y] rest]|] eqn:Hs;
      [by apply Htail| |by apply Htail].
    apply splitClose_Some in Hs as [-> Hin].
    apply Ascii.eqb_eq in Hc as ->.
    apply elem_of_cons in Hm as [->|Hm].
    + split; [done|]. split; [done|]. by exists "", rest.
    + destruct (IH rest m) as (? & ? & a & b & ->); [|done|].
      { rewrite !length_append in Hn. simpl in Hn. lia. }
      split; [done|]. split; [done|].
      exists ("{" +:+ String e y +:+ "}" +:+ a), b.
      by rewrite !append_assoc.
Qed.

(** X8.  The captures of the variable regex.  Every capture found in a
    template is not empty, holds no closing brace, and stands in the
    template between an opening and a closing brace. *)
Theorem matchAll_captures (s m : string) :
  m ∈ matchAll s →
  m ≠ "" ∧ Js.includes "}" m = false
  ∧ ∃ a b, s = a +:+ "{" +:+ m +:+ "}" +:+ b.
Proof. by apply (matchAll_captures_le (String.length s)). Qed.

Lemma mergeVariables_zip matches activeNoteContent blocks : ∀ i info,
  mergeVariables matches activeNoteContent i blocks info =
    info +:+ concatStrings
               (labelledBlock <$>
                List.filter (keptPair activeNoteContent)
                  (zip (drop i matches) blocks)).
Proof.
  induction blocks as [|block blocks IH]; intros i info.
  - simpl. rewrite zip_with_nil_r. simpl. by rewrite append_nil_r.
  - simpl. rewrite IH. destruct (matches !! i) as [varname|] eqn:Hi.
    + rewrite (drop_S _ _ _ Hi). simpl. unfold keptPair at 2. simpl.
      destruct (_ && _); simpl; [done|].
      unfold labelledBlock at 2. simpl. by rewrite !append_assoc.
    + apply lookup_ge_None in Hi.
      rewrite !drop_ge by lia. by simpl.
Qed.

Lemma isWhiteSpace_lowerChar (c : ascii) :
  Js.isWhiteSpace (Js.lowerChar c) = false → Js.isWhiteSpace c = false.
Proof. by destruct c as [[] [] [] [] [] [] [] []]. Qed.

Lemma trimEnd_id (s : string) :
  allChars (λ c, negb (Js.isWhiteSpace c)) s = true → Js.trimEnd s = s.
Proof.
  induction s as [|c s IH]; [done|]. simpl.
  intros [Hc Hs]%andb_true_iff. rewrite (IH Hs).
  destruct s; [|done]. by destruct (Js.isWhiteSpace c).
Qed.

Lemma trim_id (s : string) :
  allChars (λ c, negb (Js.isWhiteSpace c)) s = true → Js.trim s = s.
Proof.
  intros Hs. unfold Js.trim.
  assert (Js.trimStart s = s) as ->; [|by apply trimEnd_id].
  destruct s as [|c s]; [done|]. simpl in Hs |- *.
  apply andb_true_iff in Hs as [Hc _]. by destruct (Js.isWhiteSpace c).
Qed.

Lemma allChars_toLowerCase (s : string) :
  allChars (λ c, negb (Js.isWhiteSpace c)) (Js.toLowerCase s) = true →
  allChars (λ c, negb (Js.isWhiteSpace c)) s = true.
Proof.
  induction s as [|c s IH]; [done|]. simpl.
  intros [Hc Hs]%andb_true_iff. apply andb_true_iff. split; [|by apply IH].
  apply negb_true_iff, isWhiteSpace_lowerChar. by apply negb_true_iff.
Qed.

(** A capture that reads [activeNote] in some letter case has no white
    space to trim. *)
Lemma trim_activenote (m : string) :
  Js.toLowerCase m = "activenote" → Js.trim m = m.
Proof.
  intros Hm. apply trim_id, allChars_toLowerCase. by rewrite Hm.
Qed.

Section ExpansionExtras.
Context {Vault TFile : Type} `{!Utils Vault TFile}.
Implicit Types (w : World Vault) (v : Vault).

Lemma variableBlock_length v (activeNote : option TFile) capture :
  length (variableBlock v activeNote capture) ≤ 1.
Proof.
  unfold variableBlock. destruct (keptNotes _ _ _); simpl; lia.
Qed.

Lemma variableBlocks_length v (activeNote : option TFile) captures :
  length (flat_map (variableBlock v activeNote) captures) ≤ length captures.
Proof.
  induction captures as [|c captures IH]; [done|]. simpl.
  rewrite length_app.
  pose proof (variableBlock_length v activeNote c). lia.
Qed.

(** X9.  The merge loop stays within the spans.  [extractVariablesFromPrompt]
    returns at most as many blocks as the template has variable spans, so
    [matches[i]] is defined for every index [i] of a block. *)
Theorem blocks_within_spans
    (customPrompt : string) (activeNote : option TFile) w (i : nat) :
  let blocks := (extractVariablesFromPrompt customPrompt activeNote w).1 in
  length blocks ≤ length (matchAll customPrompt)
  ∧ (i < length blocks → is_Some (matchAll customPrompt !! i)).
Proof.
  intros blocks. subst blocks. rewrite extractVariablesFromPrompt_run. simpl.
  pose proof (variableBlocks_length (vault w) activeNote (matchAll customPrompt)).
  split; [done|]. intros Hi. apply lookup_lt_is_Some. lia.
Qed.

Lemma expansion_zip
    (customPrompt selectedText : string) (activeNote : option TFile) w :
  (processCustomPrompt customPrompt selectedText activeNote w).1 =
    processedOf customPrompt +:+ nn +:+
    selectionInfo (vault w) customPrompt selectedText activeNote +:+
    concatStrings
      (labelledBlock <$>
       List.filter
         (keptPair (activeContentOf (vault w) customPrompt selectedText
                      activeNote))
         (zip (matchAll customPrompt)
            (extractVariablesFromPrompt customPrompt activeNote w).1)) +:+
    linkBlocks (vault w)
      (uncoveredTitles (matchAll customPrompt)
         (extractNoteTitles (processedOf customPrompt)))
      None.
Proof.
  rewrite processCustomPrompt_run, extractVariablesFromPrompt_run. simpl.
  unfold expansion. rewrite mergeVariables_zip. rewrite drop_0.
  by rewrite !append_assoc.
Qed.

(** X10.  The shape of the result.  [processCustomPrompt] returns the
    template with the empty braces replaced, a blank line, the block of the
    selection, then the blocks of the variables, then the blocks of the
    links.  The i-th block of the variables is paired with the i-th span of
    the template and written as [\n\n<span>:\n\n<block>], except that a pair
    whose span is [activeNote] in any letter case is left out when the
    content of the active note was taken for the selection. *)
Theorem expansion_shape
    (customPrompt selectedText : string) (activeNote : option TFile) w :
  let v := vault w in
  let matches := matchAll customPrompt in
  let blocks := (extractVariablesFromPrompt customPrompt activeNote w).1 in
  let activeNoteContent :=
    activeContentOf v customPrompt selectedText activeNote in
  (processCustomPrompt customPrompt selectedText activeNote w).1 =
    processedOf customPrompt +:+ nn +:+
    selectionInfo v customPrompt selectedText activeNote +:+
    concatStrings
      (labelledBlock <$>
       List.filter (keptPair activeNoteContent) (zip matches blocks)) +:+
    linkBlocks v
      (uncoveredTitles matches (extractNoteTitles (processedOf customPrompt)))
      None.
Proof.
  intros v matches blocks anc. subst v matches blocks anc.
  apply expansion_zip.
Qed.

Lemma variableBlock_activenote v (file : TFile) (text m : string) :
  getFileContent file v None = Some text →
  text ≠ "" →
  Js.toLowerCase m = "activenote" →
  variableBlock v (Some file) m =
    [markdownContent [mkNote (getFileName file) text]].
Proof.
  intros Hc Hne Hm.
  unfold variableBlock, keptNotes, candidateFiles, isActiveNote.
  rewrite (trim_activenote m Hm), bool_decide_eq_true_2 by done.
  simpl. unfold keptNote. rewrite Hc. by destruct text.
Qed.

Lemma aligned_blocks v (file : TFile) (text : string) (ms : list string) :
  getFileContent file v None = Some text →
  text ≠ "" →
  (∀ m, m ∈ ms → Js.toLowerCase m ≠ "activenote" →
        keptNotes v (Some file) (Js.trim m) ≠ []) →
  List.filter (keptPair (Some text))
    (zip ms (flat_map (variableBlock v (Some file)) ms)) =
  (λ m, (m, markdownContent (keptNotes v (Some file) (Js.trim m)))) <$>
    List.filter (λ m, negb (bool_decide (Js.toLowerCase m = "activenote"))) ms.
Proof.
  intros Hc Hne. induction ms as [|m ms IH]; intros Hres; [done|].
  assert (List.filter (keptPair (Some text))
            (zip ms (flat_map (variableBlock v (Some file)) ms)) =
          (λ m, (m, markdownContent (keptNotes v (Some file) (Js.trim m)))) <$>
            List.filter
              (λ m, negb (bool_decide (Js.toLowerCase m = "activenote"))) ms)
    as IH'.
  { apply IH. intros m' Hm'. apply Hres. by right. }
  change (flat_map (variableBlock v (Some file)) (m :: ms))
    with (variableBlock v (Some file) m ++
          flat_map (variableBlock v (Some file)) ms).
  destruct (decide (Js.toLowerCase m = "activenote")) as [Hm|Hm].
  - rewrite (variableBlock_activenote v file text m Hc Hne Hm). simpl.
    unfold keptPair at 1. simpl.
    rewrite !bool_decide_eq_true_2 by done. simpl.
    destruct text; [done|]. simpl. exact IH'.
  - assert (keptNotes v (Some file) (Js.trim m) ≠ []) as Hk
      by (apply Hres; [by left | done]).
    unfold variableBlock at 1.
    destruct (keptNotes v (Some file) (Js.trim m)) as [|n ns] eqn:Hn; [done|].
    simpl. unfold keptPair at 1. simpl.
    rewrite !bool_decide_eq_false_2 by done. simpl.
    rewrite Hn. by rewrite IH'.
Qed.

(** X11.  The span of the active note adds no block when the note is the
    selection.  When the template contains the empty braces, no text is
    selected, the active note has content, and every span other than
    [activeNote] resolves to a note with content, then the result is the
    template with the placeholder, the content of the active note as the
    selection, and after it the block of each span that does not read
    [activeNote] (compared in lower case, as captured), under the name of
    that span; a span that reads [activeNote] adds nothing, and the block
    it would have added is the active note under its heading. *)
Theorem active_note_span_left_out
    (customPrompt : string) (file : TFile) (text : string) w :
  Js.includes "{}" customPrompt = true →
  getFileContent file (vault w) None = Some text →
  text ≠ "" →
  (∀ m, m ∈ matchAll customPrompt →
        Js.toLowerCase m ≠ "activenote" →
        keptNotes (vault w) (Some file) (Js.trim m) ≠ []) →
  let v := vault w in
  let matches := matchAll customPrompt in
  (∀ m, Js.toLowerCase m = "activenote" →
        variableBlock v (Some file) m =
          [markdownContent [mkNote (getFileName file) text]])
  ∧ (processCustomPrompt customPrompt "" (Some file) w).1 =
      replaceEmptyBraces customPrompt +:+ nn +:+
      ("selectedText (entire active note):" +:+ nn +:+ " " +:+ text) +:+
      concatStrings
        ((λ m, labelledBlock
                 (m, markdownContent (keptNotes v (Some file) (Js.trim m)))) <$>
         List.filter
           (λ m, negb (bool_decide (Js.toLowerCase m = "activenote")))
           matches) +:+
      linkBlocks v
        (uncoveredTitles matches
           (extractNoteTitles (replaceEmptyBraces customPrompt)))
        None.
Proof.
  intros Hb Hc Hne Hres v matches. subst v matches.
  split; [intros m; by apply variableBlock_activenote|].
  rewrite expansion_zip, extractVariablesFromPrompt_run.
  unfold processedOf, selectionInfo, activeContentOf. rewrite Hb. simpl.
  rewrite Hc. simpl.
  rewrite (aligned_blocks (vault w) file text (matchAll customPrompt) Hc Hne Hres).
  by rewrite <- list_fmap_compose.
Qed.

End ExpansionExtras.

(** ** Tag variables *)

Lemma includes_char_cons (x d : ascii) (s : string) :
  Js.includes (String x "") (String d s) =
    Ascii.eqb d x || Js.includes (String x "") s.
Proof.
  rewrite includes_unfold, prefix_cons, ascii_dec_eqb.
  by destruct (Ascii.eqb d x), s.
Qed.

Lemma split_no_sep (sep : ascii) (p : string) :
  Js.includes (String sep "") p = false → Js.split sep p = (p, []).
Proof.
  induction p as [|c p IH]; [done|].
  rewrite includes_char_cons. intros [Hc Hp]%orb_false_iff.
  simpl. by rewrite (IH Hp), Hc.
Qed.

Lemma split_app (sep : ascii) (p rest : string) :
  Js.includes (String sep "") p = false →
  Js.split sep (p +:+ String sep rest) = (p, Js.splitList sep rest).
Proof.
  induction p as [|c p IH].
  - intros _. rewrite append_nil_l. simpl. unfold Js.splitList.
    destruct (Js.split sep rest). by rewrite Ascii.eqb_refl.
  - rewrite includes_char_cons. intros [Hc Hp]%orb_false_iff.
    rewrite append_cons. simpl. by rewrite (IH Hp), Hc.
Qed.

(** Splitting at a separator undoes joining with it, when no part holds
    the separator. *)
Lemma splitList_join (sep : ascii) (parts : list string) :
  parts ≠ [] →
  Forall (λ p, Js.includes (String sep "") p = false) parts →
  Js.splitList sep (Js.join (String sep "") parts) = parts.
Proof.
  induction parts as [|p parts IH]; [done|]. intros _ Hall.
  apply Forall_cons in Hall as [Hp Hall].
  destruct parts as [|q parts].
  - simpl. unfold Js.splitList. by rewrite split_no_sep.
  - change (Js.join (String sep "") (p :: q :: parts))
      with (p +:+ String sep (Js.join (String sep "") (q :: parts))).
    unfold Js.splitList at 1. rewrite split_app by done.
    by rewrite IH.
Qed.

Section TagExtras.
Context {Vault TFile : Type} `{!Utils Vault TFile}.
Implicit Types (w : World Vault) (v : Vault).

(** X12.  Tag variables.  For a variable made of ["#"] and tags joined by
    commas, none of which holds a comma, the notes are looked up by exactly
    these tags, each trimmed: only the first ["#"] is removed, and the notes
    kept are those among the tagged files whose content is not empty. *)
Theorem tag_variable_looks_up_its_tags
    (tags : list string) (activeNote : option TFile) w :
  tags ≠ [] →
  Forall (λ t, Js.includes "," t = false) tags →
  (variableNotes ("#" +:+ Js.join "," tags) activeNote w).1 =
    flat_map (keptNote (vault w))
      (getNotesFromTags (vault w) (Js.trim <$> tags)).
Proof.
  intros Hne Hall. rewrite variableNotes_run. simpl.
  unfold keptNotes, candidateFiles, isActiveNote.
  rewrite bool_decide_eq_false_2 by (rewrite append_cons; discriminate).
  change (Js.startsWith "#" ("#" +:+ Js.join "," tags)) with
    (String.prefix "#" (String "#" (Js.join "," tags))).
  rewrite prefix_cons. simpl.
  replace (String.prefix "" (Js.join "," tags)) with true
    by (by destruct (Js.join "," tags)).
  rewrite append_nil_l. by rewrite splitList_join.
Qed.

End TagExtras.

(** * The chat view *)

Section HistoryExtras.
Import Chat.
Context (history : list string) (top bottom : string).

Local Abbreviation nav := (navigateHistory history top bottom).
Local Abbreviation len := (Z.of_nat (length history)).

Lemma arrayGet_reverse (k : nat) :
  k < length history →
  arrayGet history (len - 1 - Z.of_nat k) = reverse history !! k.
Proof.
  intros Hk. unfold arrayGet.
  replace (len - 1 - Z.of_nat k <? 0)%Z with false by lia.
  rewrite reverse_lookup by done. f_equal. lia.
Qed.

(** X13.  The history index stays within the history.  From an index
    between -1 and the last index of the history, [navigateHistory] in
    either direction returns a text (never [undefined]) and leaves an index
    in that range. *)
Theorem navigateHistory_in_bounds (direction : Direction) (historyIndex : Z) :
  (-1 ≤ historyIndex ≤ len - 1)%Z →
  let r := navigateHistory history top bottom direction historyIndex in
  is_Some r.1 ∧ (-1 ≤ r.2 ≤ len - 1)%Z.
Proof.
  intros Hi. unfold navigateHistory. destruct direction.
  - destruct (historyIndex <? len - 1)%Z eqn:Hlt; simpl; [|by split; [eexists|]].
    split; [|lia]. unfold arrayGet.
    replace (len - 1 - historyIndex - 1 <? 0)%Z with false by lia.
    apply lookup_lt_is_Some. lia.
  - destruct (historyIndex >? -1)%Z eqn:Hgt; simpl; [|by split; [eexists|]].
    split; [|lia]. destruct (historyIndex =? 0)%Z eqn:H0; [by eexists|].
    unfold arrayGet.
    replace (len - 1 - historyIndex + 1 <? 0)%Z with false by lia.
    apply lookup_lt_is_Some. lia.
Qed.

Lemma nav_up (k : nat) :
  k < length history →
  nav up (Z.of_nat k - 1) = (reverse history !! k, Z.of_nat k).
Proof.
  intros Hk. unfold navigateHistory.
  replace (Z.of_nat k - 1 <? len - 1)%Z with true by lia.
  f_equal; [|lia]. rewrite <- arrayGet_reverse by done. f_equal. lia.
Qed.

Lemma afterUps_index (n : nat) :
  n ≤ length history →
  afterUps history top bottom n (-1) = (Z.of_nat n - 1)%Z.
Proof.
  induction n as [|n IH]; intros Hn; [done|].
  unfold afterUps in *. rewrite Nat.iter_succ, IH by lia.
  rewrite nav_up by lia. simpl. lia.
Qed.

(** X14.  "Up" walks back through the sent messages.  After [n] presses of
    "up" from the start, with [n] less than the number of sent messages,
    one more press returns the message sent [n] messages before the last
    one, and the index becomes [n]. *)
Theorem up_shows_nth_most_recent (n : nat) :
  n < length history →
  navigateHistory history top bottom up
    (afterUps history top bottom n (-1)) =
    (reverse history !! n, Z.of_nat n).
Proof. intros Hn. rewrite afterUps_index by lia. by apply nav_up. Qed.

(** X15.  "Down" undoes "up".  From an index below the last one, "up" and
    then "down" lead back to the same index, and "down" returns the message
    of that index, or the empty text at the start. *)
Theorem up_then_down (historyIndex : Z) :
  (-1 ≤ historyIndex < len - 1)%Z →
  navigateHistory history top bottom down
    (navigateHistory history top bottom up historyIndex).2 =
    (if (historyIndex =? -1)%Z then Some ""
     else reverse history !! Z.to_nat historyIndex,
     historyIndex).
Proof.
  intros Hi. unfold navigateHistory at 2.
  replace (historyIndex <? len - 1)%Z with true by lia. simpl.
  unfold navigateHistory.
  replace (historyIndex + 1 >? -1)%Z with true by lia.
  f_equal; [|lia].
  destruct (historyIndex =? -1)%Z eqn:H1.
  - by replace (historyIndex + 1 =? 0)%Z with true by lia.
  - replace (historyIndex + 1 =? 0)%Z with false by lia.
    rewrite <- arrayGet_reverse by lia. f_equal. lia.
Qed.

End HistoryExtras.

(** ** The name of a saved chat *)

Lemma allChars_app (P : ascii → bool) (a b : string) :
  allChars P (a +:+ b) = allChars P a && allChars P b.
Proof.
  induction a as [|c a IH]; [done|].
  rewrite append_cons. simpl. by rewrite IH, andb_assoc.
Qed.

Lemma allChars_trimStart (P : ascii → bool) (s : string) :
  allChars P s = true → allChars P (Js.trimStart s) = true.
Proof.
  induction s as [|c s IH]; [done|]. simpl.
  intros [Hc Hs]%andb_true_iff.
  destruct (Js.isWhiteSpace c); [by apply IH|]. simpl. by rewrite Hc, Hs.
Qed.

Lemma allChars_trimEnd (P : ascii → bool) (s : string) :
  allChars P s = true → allChars P (Js.trimEnd s) = true.
Proof.
  induction s as [|c s IH]; [done|]. simpl.
  intros [Hc Hs]%andb_true_iff. specialize (IH Hs).
  destruct (Js.trimEnd s) as [|d t].
  - destruct (Js.isWhiteSpace c); [done|]. simpl. by rewrite Hc.
  - simpl in *. by rewrite Hc, IH.
Qed.

Section FileNameExtras.
Import Chat.

Definition notWhiteSpace (c : ascii) : bool := negb (Js.isWhiteSpace c).
Definition validFileNameChar (c : ascii) : bool := negb (invalidFileNameChar c).

Lemma replaceWsFrom_no_ws (inRun : bool) (s : string) :
  allChars notWhiteSpace (replaceWsFrom inRun s) = true.
Proof.
  revert inRun. induction s as [|c s IH]; intros inRun; [done|]. simpl.
  destruct (Js.isWhiteSpace c) eqn:Hc.
  - destruct inRun; [done|]. simpl. by rewrite IH.
  - simpl. unfold notWhiteSpace at 1. by rewrite Hc, IH.
Qed.

Lemma replaceWsFrom_allChars (P : ascii → bool) (inRun : bool) (s : string) :
  P "_"%char = true →
  allChars P s = true → allChars P (replaceWsFrom inRun s) = true.
Proof.
  intros HP. revert inRun. induction s as [|c s IH]; intros inRun; [done|].
  simpl. intros [Hc Hs]%andb_true_iff.
  destruct (Js.isWhiteSpace c).
  - destruct inRun; [by apply IH|]. simpl. by rewrite HP, IH.
  - simpl. by rewrite Hc, IH.
Qed.

Lemma replaceWsFrom_length (inRun : bool) (s : string) :
  String.length (replaceWsFrom inRun s) ≤ String.length s.
Proof.
  revert inRun. induction s as [|c s IH]; intros inRun; [done|]. simpl.
  destruct (Js.isWhiteSpace c).
  - destruct inRun; simpl.
    + pose proof (IH true). lia.
    + pose proof (IH true). lia.
  - simpl. pose proof (IH false). lia.
Qed.

Lemma removeInvalid_valid (s : string) :
  allChars validFileNameChar (removeInvalid s) = true.
Proof.
  induction s as [|c s IH]; [done|]. simpl.
  destruct (invalidFileNameChar c) eqn:Hc; [done|].
  simpl. unfold validFileNameChar at 1. by rewrite Hc, IH.
Qed.

Lemma sliceTo_allChars (P : ascii → bool) (n : nat) (s : string) :
  allChars P s = true → allChars P (sliceTo n s) = true.
Proof.
  revert s. induction n as [|n IH]; intros [|c s]; [done..|]. simpl.
  intros [Hc Hs]%andb_true_iff. by rewrite Hc, IH.
Qed.

Lemma sliceTo_length (n : nat) (s : string) : String.length (sliceTo n s) ≤ n.
Proof.
  revert s. induction n as [|n IH]; intros [|c s]; simpl; [lia..|].
  pose proof (IH s). lia.
Qed.

Lemma firstTenWords_valid (firstUserMessage : option string) :
  allChars validFileNameChar (firstTenWords firstUserMessage) = true.
Proof.
  destruct firstUserMessage as [m|]; [|done]. unfold firstTenWords, Js.trim.
  apply allChars_trimEnd, allChars_trimStart, removeInvalid_valid.
Qed.

(** X16.  The name of a saved chat.  The file name built from the first
    user message and the formatted time has no white space, is at most 101
    characters longer than the formatted time, and has none of the
    characters that are invalid in a file name when the formatted time has
    none. *)
Theorem sanitizedFileName_safe
    (firstUserMessage : option string) (timestampFileName : string) :
  let fileName := sanitizedFileName firstUserMessage timestampFileName in
  allChars notWhiteSpace fileName = true
  ∧ String.length fileName ≤ 101 + String.length timestampFileName
  ∧ (allChars validFileNameChar timestampFileName = true →
     allChars validFileNameChar fileName = true).
Proof.
  intros fileName. subst fileName. unfold sanitizedFileName, replaceWs.
  split; [apply replaceWsFrom_no_ws|]. split.
  - etransitivity; [apply replaceWsFrom_length|].
    pose proof (sliceTo_length 100 (firstTenWords firstUserMessage)).
    rewrite !length_append. change (String.length "@") with 1. lia.
  - intros Hts. apply replaceWsFrom_allChars; [done|].
    rewrite !allChars_app, Hts.
    by rewrite sliceTo_allChars by apply firstTenWords_valid.
Qed.

End FileNameExtras.

(** ** Saving the chat *)

Section SaveExtras.
Import Chat.
Context (now : Z) (showNumber : Z → string) (formatFileName : Z → string).
Context (USER_SENDER : string).
Context (defaultSaveFolder currentModelKey defaultConversationTag : string).

Local Abbreviation handleSaveAsNote :=
  (Chat.handleSaveAsNote now showNumber formatFileName USER_SENDER
     defaultSaveFolder currentModelKey defaultConversationTag).
Local Abbreviation noteFileNameOf :=
  (Chat.noteFileNameOf formatFileName USER_SENDER defaultSaveFolder).
Local Abbreviation noteContentOf :=
  (Chat.noteContentOf showNumber currentModelKey defaultConversationTag).

Lemma noteFileName_ne_folder visible e :
  noteFileNameOf visible e ≠ defaultSaveFolder.
Proof. by apply append_ne_self. Qed.

(** X17.  What a save writes.  When the chat has a visible message and no
    folder stands at the path of the note, the note holds the front matter
    and the visible messages afterwards, whether it existed before or not;
    the note is opened exactly when asked; one notice is shown. *)
Theorem handleSaveAsNote_writes_note
    (chatHistory : list ChatMessage) (openNote : bool) (v : View)
    (first : ChatMessage) (others : list ChatMessage) :
  List.filter isVisible chatHistory = first :: others →
  let visible := first :: others in
  let noteFileName := noteFileNameOf visible (firstEpoch now first) in
  files v !! noteFileName ≠ Some PromptStore.Folder →
  let v' := handleSaveAsNote chatHistory openNote v in
  files v' !! noteFileName =
    Some (PromptStore.File (noteContentOf visible (firstEpoch now first)))
  ∧ opened v' = opened v ++ (if openNote then [noteFileName] else [])
  ∧ length (shown v') = Datatypes.S (length (shown v))
  ∧ errors v' = errors v.
Proof.
  intros Hvis visible noteFileName Hnf v'. subst v'.
  unfold Chat.handleSaveAsNote. rewrite Hvis.
  fold visible. fold noteFileName.
  set (fs := match files v !! defaultSaveFolder with
             | Some _ => files v | None => _ end).
  assert (fs !! noteFileName = files v !! noteFileName) as Hfs.
  { subst fs. destruct (files v !! defaultSaveFolder); [done|].
    rewrite lookup_insert_ne; [done|].
    intros H. symmetry in H. by apply noteFileName_ne_folder in H. }
  rewrite Hfs.
  destruct (files v !! noteFileName) as [[c|]|] eqn:Hn; [|done|];
    destruct openNote; simpl;
    by rewrite lookup_insert_eq, ?app_nil_r, length_app, Nat.add_1_r.
Qed.

(** X18.  A save touches the note and the save folder only.  Whatever the
    history and the outcome, the entry at every path other than the save
    folder and the note is as before, and an entry already at the save
    folder is kept. *)
Theorem handleSaveAsNote_frame
    (chatHistory : list ChatMessage) (openNote : bool) (v : View)
    (path : string) :
  let visible := List.filter isVisible chatHistory in
  let v' := handleSaveAsNote chatHistory openNote v in
  ((∀ first, head visible = Some first →
             path ≠ noteFileNameOf visible (firstEpoch now first)) →
   path ≠ defaultSaveFolder →
   files v' !! path = files v !! path)
  ∧ (∀ e, files v !! defaultSaveFolder = Some e →
          files v' !! defaultSaveFolder = Some e).
Proof.
  intros visible v'. subst v'. unfold Chat.handleSaveAsNote. fold visible.
  destruct visible as [|first others] eqn:Hvis; [done|].
  set (noteFileName := noteFileNameOf (first :: others) (firstEpoch now first)).
  set (fs := match files v !! defaultSaveFolder with
             | Some _ => files v | None => _ end).
  assert (noteFileName ≠ defaultSaveFolder) as Hne
    by apply noteFileName_ne_folder.
  split.
  - intros Hp Hf. specialize (Hp first eq_refl). fold noteFileName in Hp.
    assert (fs !! path = files v !! path) as Hfs.
    { subst fs. destruct (files v !! defaultSaveFolder); [done|].
      by rewrite lookup_insert_ne. }
    destruct (fs !! noteFileName) as [[c|]|]; [| |];
      destruct openNote; simpl; by rewrite ?lookup_insert_ne.
  - intros e He.
    assert (fs !! defaultSaveFolder = Some e) as Hfs
      by (subst fs; by rewrite He).
    destruct (fs !! noteFileName) as [[c|]|]; [| |];
      destruct openNote; simpl; by rewrite ?lookup_insert_ne.
Qed.

End SaveExtras.

(** * The header picker *)

Section HeaderExtras.
Import Headers.

Definition notLineTerminator (c : ascii) : bool := negb (isLineTerminator c).

Lemma dotStar_no_terminator (s : string) :
  allChars notLineTerminator (dotStar s) = true.
Proof.
  induction s as [|c s IH]; [done|]. simpl.
  destruct (isLineTerminator c) eqn:Hc; [done|].
  simpl. unfold notLineTerminator at 1. by rewrite Hc, IH.
Qed.

Lemma dotStar_id (s : string) :
  allChars notLineTerminator s = true → dotStar s = s.
Proof.
  induction s as [|c s IH]; [done|]. simpl.
  unfold notLineTerminator at 1.
  intros [Hc Hs]%andb_true_iff. apply negb_true_iff in Hc.
  by rewrite Hc, IH.
Qed.

Lemma trimStart_head (s : string) (c : ascii) :
  headChar (Js.trimStart s) = Some c → Js.isWhiteSpace c = false.
Proof.
  induction s as [|d s IH]; [done|]. simpl.
  destruct (Js.isWhiteSpace d) eqn:Hd; [done|].
  simpl. by intros [= <-].
Qed.

Lemma dotStar_head (s : string) (c : ascii) :
  headChar (dotStar s) = Some c → headChar s = Some c.
Proof. destruct s as [|d s]; [done|]. simpl. by destruct (isLineTerminator d). Qed.

Lemma dropHashes_hashes (n : nat) (s : string) :
  dropHashes (hashes n +:+ " " +:+ s) = " " +:+ s.
Proof. induction n as [|n IH]; [done|]. simpl. exact IH. Qed.

(** X19.  What counts as a header.  A line yields a header only when it
    starts with ["#"]; the header has no carriage return or line feed and
    does not start with white space. *)
Theorem headerMatch_shape (line h : string) :
  headerMatch line = Some h →
  headChar line = Some "#"%char
  ∧ allChars notLineTerminator h = true
  ∧ (∀ c, headChar h = Some c → Js.isWhiteSpace c = false).
Proof.
  unfold headerMatch. destruct line as [|c t]; [done|].
  destruct (Ascii.eqb c "#") eqn:Hc; [|done].
  apply Ascii.eqb_eq in Hc as ->.
  destruct (dropHashes t) as [|d r]; [done|].
  destruct (Js.isWhiteSpace d); [|done]. intros [= <-].
  split; [done|]. split; [apply dotStar_no_terminator|].
  intros c Hc. by apply dotStar_head, trimStart_head in Hc.
Qed.

(** X20.  Headers are read back.  In a note made of lines joined by line
    feeds, none of which holds a line feed, the headers found are those of
    the lines, in order; and a line made of one or more ["#"], a space and
    a text without line terminator that does not start with white space
    yields that text. *)
Theorem headers_read_back (lines : list string) (n : nat) (h : string) :
  (lines ≠ [] →
   Forall (λ l, Js.includes LF l = false) lines →
   headersOfContent (Js.join LF lines) = omap headerMatch lines)
  ∧ (allChars notLineTerminator h = true →
     Js.trimStart h = h →
     headerMatch (hashes (S n) +:+ " " +:+ h) = Some h).
Proof.
  split.
  - intros Hne Hall. unfold headersOfContent.
    by rewrite (splitList_join (ascii_of_nat 10)).
  - intros Hh Ht. unfold headerMatch.
    change (hashes (S n) +:+ " " +:+ h) with (String "#" (hashes n +:+ " " +:+ h)).
    cbv beta iota. rewrite Ascii.eqb_refl, dropHashes_hashes.
    change (" " +:+ h) with (String " " h). cbv beta iota.
    change (Js.isWhiteSpace " ") with true. cbv beta iota.
    by rewrite Ht, dotStar_id.
Qed.

End HeaderExtras.

(** * The model selector *)

Section ModelKeyExtras.
Import ModelKey.

(** X21.  Model keys tell models apart.  Two models whose names hold no
    ["|"] and whose keys are equal have the same name and the same
    provider. *)
Theorem getModelKey_inj (m m' : CustomModel) :
  Js.includes "|" (name m) = false →
  Js.includes "|" (name m') = false →
  getModelKey m = getModelKey m' →
  name m = name m' ∧ provider m = provider m'.
Proof.
  unfold getModelKey. intros Hm Hm' Hk.
  pose proof (split_app "|" (name m) (provider m) Hm) as H1.
  pose proof (split_app "|" (name m') (provider m') Hm') as H2.
  change (name m +:+ String "|" (provider m))
    with (name m +:+ "|" +:+ provider m) in H1.
  change (name m' +:+ String "|" (provider m'))
    with (name m' +:+ "|" +:+ provider m') in H2.
  rewrite Hk, H2 in H1. injection H1 as Hn _.
  split; [done|]. rewrite Hn in Hk. by do 2 apply String.app_inj in Hk.
Qed.

End ModelKeyExtras.

(** * Listing the prompts *)

Lemma NoDup_List_filter {A : Type} (f : A → bool) (l : list A) :
  NoDup l → NoDup (List.filter f l).
Proof.
  induction 1 as [|x l Hx Hl IH]; [constructor|]. simpl.
  destruct (f x); [|done]. constructor; [|done].
  intros Hin. apply Hx.
  by apply list_elem_of_In, filter_In in Hin as [Hin%list_elem_of_In _].
Qed.

Section ListingExtras.
Import PromptStore.
Context {Usage : Type}.
Context (removeUnusedPrompts : list string → Usage → Usage).
Context (compare : Usage → string → string → Z).
Context (getFiles : gmap string Entry → list string).
Context (basename extension : string → string).
Context (sortBy : (CustomPrompt → CustomPrompt → Z) →
                  list CustomPrompt → list CustomPrompt).
Context (customPromptsFolder : string).

(** [vault.getFiles()] lists the files of the vault, and sorting permutes
    its argument. *)
Hypothesis getFiles_spec : ∀ fs path,
  path ∈ getFiles fs ↔ ∃ c, fs !! path = Some (File c).
Hypothesis sortBy_perm : ∀ f l, sortBy f l ≡ₚ l.

(** [vault.getFiles()] lists each file once. *)
Hypothesis getFiles_NoDup : ∀ fs, NoDup (getFiles fs).

Local Abbreviation getAllPrompts :=
  (PromptStore.getAllPrompts removeUnusedPrompts compare getFiles
     basename extension sortBy customPromptsFolder).
Local Abbreviation getPrompt := (PromptStore.getPrompt customPromptsFolder).
Local Abbreviation promptPath := (PromptStore.promptPath customPromptsFolder).

Lemma getAllPrompts_elem (s : Store Usage) (p : CustomPrompt) :
  p ∈ (getAllPrompts s).1 ↔
  ∃ path c, files s !! path = Some (File c)
            ∧ (∃ rest, path = customPromptsFolder +:+ rest)
            ∧ extension path = "md"
            ∧ p = mkPrompt (basename path) c.
Proof.
  unfold PromptStore.getAllPrompts. simpl.
  rewrite sortBy_perm, list_elem_of_fmap. split.
  - intros (path & -> & Hin).
    apply list_elem_of_In, filter_In in Hin as [Hin Hok].
    apply list_elem_of_In, getFiles_spec in Hin as [c Hc].
    apply andb_true_iff in Hok as [Hpre Hext].
    apply bool_decide_eq_true in Hext. apply prefix_spec in Hpre.
    exists path, c. unfold readPath. by rewrite Hc.
  - intros (path & c & Hc & Hpre & Hext & ->). exists path. split.
    + unfold readPath. by rewrite Hc.
    + apply list_elem_of_In, filter_In. split.
      * apply list_elem_of_In, getFiles_spec. by exists c.
      * apply andb_true_iff. split; [by apply prefix_spec|].
        by apply bool_decide_eq_true.
Qed.

(** X22.  What is listed.  [getAllPrompts] returns, in some order, exactly
    one prompt for each file of the vault whose path starts with the folder
    setting and whose extension is [md], with the base name of the file as
    title and its content as content: the prompts returned are a
    permutation of a list that matches, prompt by path, the list of these
    paths without repetition.  The files of the vault are left as they
    are. *)
Theorem getAllPrompts_lists_markdown_files (s : Store Usage) :
  (∃ paths listed,
     NoDup paths
     ∧ (∀ path, path ∈ paths ↔
          (∃ c, files s !! path = Some (File c))
          ∧ (∃ rest, path = customPromptsFolder +:+ rest)
          ∧ extension path = "md")
     ∧ (getAllPrompts s).1 ≡ₚ listed
     ∧ Forall2 (λ p path, title p = basename path
                          ∧ files s !! path = Some (File (content p)))
         listed paths)
  ∧ files (getAllPrompts s).2 = files s.
Proof.
  split; [|done].
  set (paths := List.filter
                  (λ path, Js.startsWith customPromptsFolder path
                           && bool_decide (extension path = "md"))
                  (getFiles (files s))).
  assert (∀ path, path ∈ paths ↔
            (∃ c, files s !! path = Some (File c))
            ∧ (∃ rest, path = customPromptsFolder +:+ rest)
            ∧ extension path = "md") as Hpaths.
  { intros path. subst paths.
    rewrite list_elem_of_In, filter_In, <- list_elem_of_In, getFiles_spec.
    rewrite andb_true_iff, bool_decide_eq_true.
    unfold Js.startsWith. by rewrite prefix_spec. }
  exists paths,
    ((λ path, mkPrompt (basename path) (readPath (files s) path)) <$> paths).
  split; [unfold paths; apply NoDup_List_filter, getFiles_NoDup|].
  split; [exact Hpaths|].
  split; [apply sortBy_perm|].
  apply Forall2_fmap_l, Forall_Forall2_diag, Forall_forall.
  intros path Hin. apply Hpaths in Hin as [[c Hc] _].
  simpl. unfold readPath. by rewrite Hc.
Qed.

(** X23.  What [getPrompt] finds is listed.  When the path of a title has
    that title as base name and [md] as extension, a prompt that
    [getPrompt] returns for the title is among the prompts that
    [getAllPrompts] returns. *)
Theorem getPrompt_in_getAllPrompts
    (t : string) (p : CustomPrompt) (s : Store Usage) :
  basename (promptPath t) = t →
  extension (promptPath t) = "md" →
  getPrompt t s = Some p →
  p ∈ (getAllPrompts s).1.
Proof.
  intros Hb He. unfold PromptStore.getPrompt.
  destruct (files s !! promptPath t) as [[c|]|] eqn:Hc; [|done..].
  intros [= <-]. apply getAllPrompts_elem.
  exists (promptPath t), c. split; [done|]. split; [by eexists|].
  by rewrite Hb.
Qed.

End ListingExtras.

(** * The further properties on the examples *)

Lemma updatePrompt_then_getPrompt_witness :
  is_Some (PromptStore.getPrompt "prompts" "A" Demo.demoStoreAB)
  ∧ PromptStore.getPrompt "prompts" "C"
      (PromptStore.storeOf
         (PromptStore.updatePrompt Demo.updateUsage "prompts" "A" "C"
            "new text" Demo.demoStoreAB)) =
    Some (PromptStore.mkPrompt "C" "new text").
Proof.
  split; [by eexists|].
  apply (updatePrompt_then_getPrompt Demo.updateUsage "prompts" "A" "C"
           "new text" Demo.demoStoreAB); [by eexists | by vm_compute].
Defined.

Lemma updatePrompt_rename_moves_witness :
  "A" ≠ "C"
  ∧ is_Some (PromptStore.getPrompt "prompts" "A" Demo.demoStoreAB)
  ∧ PromptStore.files Demo.demoStoreAB
      !! PromptStore.promptPath "prompts" "C" = None
  ∧ ∃ s', PromptStore.updatePrompt Demo.updateUsage "prompts" "A" "C"
            "new text" Demo.demoStoreAB = PromptStore.Returned s'
          ∧ PromptStore.getPrompt "prompts" "A" s' = None
          ∧ PromptStore.getPrompt "prompts" "C" s' =
              Some (PromptStore.mkPrompt "C" "new text")
          ∧ PromptStore.usage s' =
              Demo.updateUsage "A" "C" <$> PromptStore.usage Demo.demoStoreAB.
Proof.
  split; [discriminate|]. split; [by eexists|]. split; [reflexivity|].
  apply (updatePrompt_rename_moves Demo.updateUsage "prompts" "A" "C"
           "new text" Demo.demoStoreAB);
    [discriminate | by eexists | reflexivity].
Defined.

Lemma updatePrompt_frame_witness :
  "prompts/B.md" ≠ PromptStore.promptPath "prompts" "A"
  ∧ "prompts/B.md" ≠ PromptStore.promptPath "prompts" "C"
  ∧ PromptStore.files
      (PromptStore.storeOf
         (PromptStore.updatePrompt Demo.updateUsage "prompts" "A" "C"
            "new text" Demo.demoStoreAB)) !! "prompts/B.md" =
    PromptStore.files Demo.demoStoreAB !! "prompts/B.md".
Proof.
  split; [discriminate|]. split; [discriminate|].
  apply (updatePrompt_frame Demo.updateUsage "prompts" "A" "C" "new text"
           "prompts/B.md" Demo.demoStoreAB); discriminate.
Defined.

Lemma savePrompt_then_getPrompt_witness :
  PromptStore.files Demo.demoStore !! PromptStore.promptPath "prompts" "A" = None
  ∧ ∃ s', PromptStore.savePrompt (λ p, p) "File already exists." "prompts"
            "A" "text of A" Demo.demoStore = PromptStore.Returned s'
          ∧ PromptStore.getPrompt "prompts" "A" s' =
              Some (PromptStore.mkPrompt "A" "text of A")
          ∧ (∀ t, t ≠ "A" →
               PromptStore.getPrompt "prompts" t s' =
               PromptStore.getPrompt "prompts" t Demo.demoStore)
          ∧ PromptStore.usage s' = PromptStore.usage Demo.demoStore.
Proof.
  split; [reflexivity|].
  apply (savePrompt_then_getPrompt (λ p, p) "File already exists." "prompts"
           "A" "text of A" Demo.demoStore); reflexivity.
Defined.

Lemma savePrompt_keeps_entries_witness :
  is_Some (PromptStore.files Demo.demoStore !! "prompts/B.md")
  ∧ ∃ s', PromptStore.savePrompt (λ p, p) "File already exists." "prompts"
            "B" "other text" Demo.demoStore =
          PromptStore.Threw "File already exists." s'.
Proof.
  split; [by eexists|].
  destruct (savePrompt_keeps_entries (λ p, p) "File already exists." "prompts"
              "B" "other text" Demo.demoStore) as [_ Hthrows].
  apply Hthrows. by eexists.
Defined.


Lemma matchAll_captures_witness :
  "x" ∈ matchAll "a {x} b"
  ∧ "x" ≠ "" ∧ Js.includes "}" "x" = false
  ∧ ∃ a b, "a {x} b" = a +:+ "{" +:+ "x" +:+ "}" +:+ b.
Proof.
  assert ("x" ∈ matchAll "a {x} b") as Hin
    by (apply list_elem_of_singleton; reflexivity).
  split; [exact Hin|]. exact (matchAll_captures "a {x} b" "x" Hin).
Defined.

Lemma blocks_within_spans_witness :
  0 < length (extractVariablesFromPrompt "{drafts} {blank}" None
                Demo.demoWorld).1
  ∧ is_Some (matchAll "{drafts} {blank}" !! 0).
Proof.
  assert (0 < length (extractVariablesFromPrompt "{drafts} {blank}" None
                        Demo.demoWorld).1) as Hlt by (vm_compute; lia).
  split; [exact Hlt|].
  destruct (blocks_within_spans "{drafts} {blank}" None Demo.demoWorld 0)
    as [_ Hdef].
  exact (Hdef Hlt).
Defined.

Lemma active_note_span_left_out_witness :
  Js.includes "{}" "{} {activeNote} {notes/B}" = true
  ∧ getFileContent "A" (vault Demo.demoWorld) None = Some "intro of A. body of A."
  ∧ "intro of A. body of A." ≠ ""
  ∧ keptNotes (vault Demo.demoWorld) (Some "A") (Js.trim "notes/B") =
      [mkNote "B" "all of B"]
  ∧ (processCustomPrompt "{} {activeNote} {notes/B}" "" (Some "A")
       Demo.demoWorld).1 =
      "{selectedText} {activeNote} {notes/B}" +:+ nn +:+
      "selectedText (entire active note):" +:+ nn +:+
      " intro of A. body of A." +:+
      nn +:+ "notes/B:" +:+ nn +:+ "## B" +:+ nn +:+ "all of B".
Proof.
  split; [reflexivity|]. split; [reflexivity|]. split; [discriminate|].
  split; [reflexivity|].
  destruct (active_note_span_left_out "{} {activeNote} {notes/B}" "A"
              "intro of A. body of A." Demo.demoWorld) as [_ Hout];
    [reflexivity | reflexivity | discriminate | | rewrite Hout; reflexivity].
  change (matchAll "{} {activeNote} {notes/B}") with ["activeNote"; "notes/B"].
  intros m Hm Hl.
  apply elem_of_cons in Hm as [->|Hm]; [by destruct Hl|].
  apply list_elem_of_singleton in Hm as ->.
  change (keptNotes (vault Demo.demoWorld) (Some "A") (Js.trim "notes/B"))
    with [mkNote "B" "all of B"].
  discriminate.
Defined.

Lemma tag_variable_looks_up_its_tags_witness :
  ["idea"; "plan"] ≠ []
  ∧ Forall (λ t, Js.includes "," t = false) ["idea"; "plan"]
  ∧ (variableNotes ("#" +:+ Js.join "," ["idea"; "plan"]) None
       Demo.demoWorld).1 =
    [mkNote "A" "intro of A. body of A."; mkNote "D" "draft text"].
Proof.
  assert (Forall (λ t, Js.includes "," t = false) ["idea"; "plan"]) as Hall
    by (repeat constructor).
  split; [discriminate|]. split; [exact Hall|].
  rewrite (tag_variable_looks_up_its_tags ["idea"; "plan"] None Demo.demoWorld);
    [reflexivity | discriminate | exact Hall].
Defined.

Lemma navigateHistory_in_bounds_witness :
  (-1 ≤ 1 ≤ Z.of_nat (length Demo.demoHistory) - 1)%Z
  ∧ is_Some (Chat.navigateHistory Demo.demoHistory "" "draft" Chat.up 1).1
  ∧ (-1 ≤ (Chat.navigateHistory Demo.demoHistory "" "draft" Chat.up 1).2
        ≤ Z.of_nat (length Demo.demoHistory) - 1)%Z.
Proof.
  assert (-1 ≤ 1 ≤ Z.of_nat (length Demo.demoHistory) - 1)%Z as Hi
    by (simpl; lia).
  split; [exact Hi|].
  exact (navigateHistory_in_bounds Demo.demoHistory "" "draft" Chat.up 1 Hi).
Defined.

Lemma up_shows_nth_most_recent_witness :
  1 < length Demo.demoHistory
  ∧ Chat.navigateHistory Demo.demoHistory "" "draft" Chat.up
      (Chat.afterUps Demo.demoHistory "" "draft" 1 (-1)) =
    (Some "second", 1%Z).
Proof.
  assert (1 < length Demo.demoHistory) as Hn by (simpl; lia).
  split; [exact Hn|].
  rewrite (up_shows_nth_most_recent Demo.demoHistory "" "draft" 1 Hn).
  reflexivity.
Defined.

Lemma up_then_down_witness :
  (-1 ≤ 0 < Z.of_nat (length Demo.demoHistory) - 1)%Z
  ∧ Chat.navigateHistory Demo.demoHistory "" "draft" Chat.down
      (Chat.navigateHistory Demo.demoHistory "" "draft" Chat.up 0).2 =
    (Some "third", 0%Z).
Proof.
  assert (-1 ≤ 0 < Z.of_nat (length Demo.demoHistory) - 1)%Z as Hi
    by (simpl; lia).
  split; [exact Hi|].
  rewrite (up_then_down Demo.demoHistory "" "draft" 0 Hi). reflexivity.
Defined.

Lemma sanitizedFileName_safe_witness :
  Chat.sanitizedFileName (Some "What is: a/b?") "20231114_221320" =
    "What_is_ab@20231114_221320"
  ∧ allChars validFileNameChar "20231114_221320" = true
  ∧ allChars validFileNameChar
      (Chat.sanitizedFileName (Some "What is: a/b?") "20231114_221320") = true.
Proof.
  split; [reflexivity|]. split; [reflexivity|].
  destruct (sanitizedFileName_safe (Some "What is: a/b?") "20231114_221320")
    as (_ & _ & Hvalid).
  apply Hvalid. reflexivity.
Defined.

Lemma handleSaveAsNote_writes_note_witness :
  Chat.files
    (Chat.handleSaveAsNote 1000 (λ _, "1700") (λ _, "20231114_221320") "user"
       "chats" "gpt|openai" "conversation" Demo.demoChat true Demo.demoView)
    !! "chats/What_is_ab@20231114_221320.md" =
  Some (PromptStore.File
          ("---" +:+ LF +:+ "epoch: 1700" +:+ LF +:+
           "modelKey: gpt|openai" +:+ LF +:+ "tags:" +:+ LF +:+
           "  - conversation" +:+ LF +:+ "---" +:+ nn +:+
           "**user**: What is: a/b?" +:+ LF +:+
           "[Timestamp: 2023/11/14 22:13:20]" +:+ nn +:+
           "**ai**: A fraction." +:+ LF +:+ "[Timestamp: undefined]"))
  ∧ Chat.opened
      (Chat.handleSaveAsNote 1000 (λ _, "1700") (λ _, "20231114_221320") "user"
         "chats" "gpt|openai" "conversation" Demo.demoChat true Demo.demoView) =
    ["chats/What_is_ab@20231114_221320.md"].
Proof.
  destruct (handleSaveAsNote_writes_note 1000 (λ _, "1700")
              (λ _, "20231114_221320") "user" "chats" "gpt|openai"
              "conversation" Demo.demoChat true Demo.demoView
              (Chat.mkMessage "What is: a/b?" "user" true
                 (Some (Chat.mkTimestamp 1700 "2023/11/14 22:13:20")))
              [Chat.mkMessage "A fraction." "ai" true None])
    as (Hfile & Hopen & _); [reflexivity | discriminate |].
  split; [|rewrite Hopen; reflexivity].
  refine (eq_trans _ (eq_trans Hfile _)); reflexivity.
Defined.

Lemma handleSaveAsNote_frame_witness :
  Chat.files
    (Chat.handleSaveAsNote 1000 (λ _, "1700") (λ _, "20231114_221320") "user"
       "chats" "gpt|openai" "conversation" Demo.demoChat false
       (Chat.mkView {[ "notes/A.md" := PromptStore.File "a" ]} [] [] []))
    !! "notes/A.md" = Some (PromptStore.File "a").
Proof.
  destruct (handleSaveAsNote_frame 1000 (λ _, "1700")
              (λ _, "20231114_221320") "user" "chats" "gpt|openai"
              "conversation" Demo.demoChat false
              (Chat.mkView {[ "notes/A.md" := PromptStore.File "a" ]} [] [] [])
              "notes/A.md") as [Hframe _].
  rewrite Hframe; [reflexivity | | discriminate].
  intros first [= <-]. discriminate.
Defined.

Lemma headerMatch_shape_witness :
  Headers.headerMatch "##  Intro" = Some "Intro"
  ∧ headChar "##  Intro" = Some "#"%char
  ∧ allChars notLineTerminator "Intro" = true
  ∧ (∀ c, headChar "Intro" = Some c → Js.isWhiteSpace c = false).
Proof.
  assert (Headers.headerMatch "##  Intro" = Some "Intro") as Hm
    by reflexivity.
  split; [exact Hm|]. exact (headerMatch_shape "##  Intro" "Intro" Hm).
Defined.

Lemma headers_read_back_witness :
  Headers.headersOfContent
    (Js.join LF ["# Title"; "text #notes"; "#tag"; "## Intro"]) =
    ["Title"; "Intro"]
  ∧ Headers.headerMatch (Headers.hashes 3 +:+ " " +:+ "Deep part") =
    Some "Deep part".
Proof.
  destruct (headers_read_back ["# Title"; "text #notes"; "#tag"; "## Intro"]
              2 "Deep part") as [Hdoc Hline].
  split.
  - rewrite Hdoc; [reflexivity | discriminate | repeat constructor].
  - apply Hline; reflexivity.
Defined.

Lemma getModelKey_inj_witness :
  Js.includes "|" "gpt-4" = false
  ∧ ModelKey.getModelKey (ModelKey.mkModel "gpt-4" "openai" true) =
    ModelKey.getModelKey (ModelKey.mkModel "gpt-4" "openai" false)
  ∧ ModelKey.name (ModelKey.mkModel "gpt-4" "openai" true) =
    ModelKey.name (ModelKey.mkModel "gpt-4" "openai" false)
  ∧ ModelKey.provider (ModelKey.mkModel "gpt-4" "openai" true) =
    ModelKey.provider (ModelKey.mkModel "gpt-4" "openai" false).
Proof.
  split; [reflexivity|]. split; [reflexivity|].
  apply (getModelKey_inj (ModelKey.mkModel "gpt-4" "openai" true)
           (ModelKey.mkModel "gpt-4" "openai" false)); reflexivity.
Defined.

Lemma demo_getFiles_spec (fs : gmap string PromptStore.Entry) (path : string) :
  path ∈ Demo.getFiles fs ↔ ∃ c, fs !! path = Some (PromptStore.File c).
Proof.
  unfold Demo.getFiles. rewrite list_elem_of_omap. split.
  - intros ([p e] & Hin & Hf). apply elem_of_map_to_list in Hin.
    simpl in Hf. destruct e as [c|]; [|done]. injection Hf as <-. by exists c.
  - intros [c Hc]. exists (path, PromptStore.File c).
    split; [by apply elem_of_map_to_list | done].
Qed.

Lemma demo_insertBy_perm {A : Type} (f : A → A → Z) (x : A) (l : list A) :
  Demo.insertBy f x l ≡ₚ x :: l.
Proof.
  induction l as [|y l IH]; [done|]. simpl.
  destruct (f x y <=? 0)%Z; [done|]. rewrite IH. apply perm_swap.
Qed.

Lemma demo_sortBy_perm {A : Type} (f : A → A → Z) (l : list A) :
  Demo.sortBy f l ≡ₚ l.
Proof.
  induction l as [|x l IH]; [done|]. unfold Demo.sortBy in *. simpl.
  by rewrite demo_insertBy_perm, IH.
Qed.

Lemma demo_getFiles_NoDup (fs : gmap string PromptStore.Entry) :
  NoDup (Demo.getFiles fs).
Proof.
  unfold Demo.getFiles.
  pose proof (NoDup_fst_map_to_list fs) as Hnd.
  induction (map_to_list fs) as [|[path e] l IH]; [constructor|].
  simpl in Hnd. apply NoDup_cons in Hnd as [Hnotin Hnd].
  simpl. destruct e as [c|]; simpl; [|by apply IH].
  apply NoDup_cons. split; [|by apply IH].
  intros ([path' e'] & Hin & Hf)%list_elem_of_omap. apply Hnotin.
  simpl in Hf. destruct e' as [c'|]; [|done]. injection Hf as ->.
  apply list_elem_of_fmap. by exists (path, PromptStore.File c').
Qed.

Lemma getAllPrompts_lists_markdown_files_witness :
  (PromptStore.getAllPrompts Demo.removeUnusedPrompts Demo.compare
     Demo.getFiles Demo.basename Demo.extension Demo.sortBy "prompts"
     Demo.demoStoreAB).1 =
    [PromptStore.mkPrompt "B" "text of B"; PromptStore.mkPrompt "A" "text of A"]
  ∧ ((∃ paths listed,
        NoDup paths
        ∧ (∀ path, path ∈ paths ↔
             (∃ c, PromptStore.files Demo.demoStoreAB !! path =
                     Some (PromptStore.File c))
             ∧ (∃ rest, path = "prompts" +:+ rest)
             ∧ Demo.extension path = "md")
        ∧ (PromptStore.getAllPrompts Demo.removeUnusedPrompts Demo.compare
             Demo.getFiles Demo.basename Demo.extension Demo.sortBy "prompts"
             Demo.demoStoreAB).1 ≡ₚ listed
        ∧ Forall2 (λ p path,
                     PromptStore.title p = Demo.basename path
                     ∧ PromptStore.files Demo.demoStoreAB !! path =
                         Some (PromptStore.File (PromptStore.content p)))
            listed paths)
     ∧ PromptStore.files
         (PromptStore.getAllPrompts Demo.removeUnusedPrompts Demo.compare
            Demo.getFiles Demo.basename Demo.extension Demo.sortBy "prompts"
            Demo.demoStoreAB).2 =
       PromptStore.files Demo.demoStoreAB).
Proof.
  split; [by vm_compute|].
  exact (getAllPrompts_lists_markdown_files Demo.removeUnusedPrompts
           Demo.compare Demo.getFiles Demo.basename Demo.extension
           Demo.sortBy "prompts" demo_getFiles_spec
           (@demo_sortBy_perm _) demo_getFiles_NoDup Demo.demoStoreAB).
Defined.

Lemma getPrompt_in_getAllPrompts_witness :
  Demo.basename (PromptStore.promptPath "prompts" "A") = "A"
  ∧ Demo.extension (PromptStore.promptPath "prompts" "A") = "md"
  ∧ PromptStore.getPrompt "prompts" "A" Demo.demoStoreAB =
    Some (PromptStore.mkPrompt "A" "text of A")
  ∧ PromptStore.mkPrompt "A" "text of A" ∈
      (PromptStore.getAllPrompts Demo.removeUnusedPrompts Demo.compare
         Demo.getFiles Demo.basename Demo.extension Demo.sortBy "prompts"
         Demo.demoStoreAB).1.
Proof.
  split; [reflexivity|]. split; [reflexivity|]. split; [reflexivity|].
  apply (getPrompt_in_getAllPrompts Demo.removeUnusedPrompts Demo.compare
           Demo.getFiles Demo.basename Demo.extension Demo.sortBy "prompts"
           demo_getFiles_spec (@demo_sortBy_perm _) "A"); reflexivity.
Defined.
